(** * smart-document-bot: the server actions of [src/app/actions.ts]

    A shallow embedding of [extractText], [handlePdfUpload] and
    [chatWithBot], together with the helper [createGroqAgent] of
    [src/lib/langchain.ts], and the properties of the ingestion and
    answering pipeline that follow from the code.

    Conventions.
    - A JavaScript string is the list of its UTF-16 code units; [length]
      is the [.length] of the source.
    - Third-party libraries (pdf-parse, pdf2json, mammoth, LangChain) and
      runtime built-ins whose code is not in the repository are fields of
      a [Host] record: the embedding fixes how the actions use their
      results, not what they compute.
    - An action runs in a monad that threads the module-level
      [sessionCache] and a trace of the calls made to the collaborators,
      and that completes either normally or abruptly with a thrown value.
    - [console.log] and [console.error] calls are not represented. *)

From Stdlib Require Import String Ascii.
From Stdlib Require Import List NArith ZArith Arith Bool Lia.
From Stdlib Require Import Floats.SpecFloat.
From Stdlib Require DecimalString.
Import ListNotations.

Set Implicit Arguments.
Set Warnings "-register-all".

(* ================================================================== *)
(** * JavaScript strings *)
(* ================================================================== *)

Module JS.

(** A string value: its sequence of UTF-16 code units. *)
Definition jsstring := list N.

(** The code units of an ASCII literal of the source. *)
Definition lit (s : string) : jsstring :=
  map N_of_ascii (list_ascii_of_string s).

(** ECMAScript LineTerminator: LF, CR, LS, PS.  These are the code units
    the pattern character [.] does not match (no [s] flag). *)
Definition isLineTerminator (c : N) : bool :=
  ((c =? 0x0A) || (c =? 0x0D) || (c =? 0x2028) || (c =? 0x2029))%N.

(** ECMAScript WhiteSpace or LineTerminator: what [trim] strips. *)
Definition isTrimmable (c : N) : bool :=
  ((c =? 0x09) || (c =? 0x0B) || (c =? 0x0C) || (c =? 0x20) || (c =? 0xA0)
   || (c =? 0xFEFF) || (c =? 0x1680)
   || ((0x2000 <=? c) && (c <=? 0x200A))
   || (c =? 0x202F) || (c =? 0x205F) || (c =? 0x3000))%N
  || isLineTerminator c.

Fixpoint trimStart (s : jsstring) : jsstring :=
  match s with
  | c :: s' => if isTrimmable c then trimStart s' else s
  | [] => []
  end.

Definition trimEnd (s : jsstring) : jsstring := rev (trimStart (rev s)).

(** [String.prototype.trim] *)
Definition trim (s : jsstring) : jsstring := trimEnd (trimStart s).

Fixpoint eqb (a b : jsstring) : bool :=
  match a, b with
  | [], [] => true
  | x :: a', y :: b' => (x =? y)%N && eqb a' b'
  | _, _ => false
  end.

Fixpoint startsWith (pat s : jsstring) : bool :=
  match pat, s with
  | [], _ => true
  | p :: pat', c :: s' => (p =? c)%N && startsWith pat' s'
  | _ :: _, [] => false
  end.

(** [String.prototype.includes] *)
Fixpoint includes (s pat : jsstring) : bool :=
  startsWith pat s ||
  match s with
  | [] => false
  | _ :: s' => includes s' pat
  end.

(** [Array.prototype.join] on an array of strings. *)
Fixpoint join (sep : jsstring) (parts : list jsstring) : jsstring :=
  match parts with
  | [] => []
  | [p] => p
  | p :: rest => p ++ sep ++ join sep rest
  end.

(** [p] is an initial segment of [s]. *)
Definition isPrefixOf (p s : jsstring) : Prop := exists r, s = p ++ r.

End JS.

Import JS.

(* ================================================================== *)
(** * The chunker: [text.match(/.{1,1000}/g) || []] and the cap of 50 *)
(* ================================================================== *)

Module Chunker.

(** One attempt of the pattern [.{1,max}] at the start of [s]: the
    greedy quantifier takes code units while they are not line
    terminators, at most [max] of them.  The attempt fails when it can
    take none, which is the empty result here. *)
Fixpoint dotRun (max : nat) (s : jsstring) : jsstring :=
  match max, s with
  | S m, c :: s' => if isLineTerminator c then [] else c :: dotRun m s'
  | _, _ => []
  end.

(** The loop of a global match: try the pattern at [lastIndex]; on
    failure move one code unit forward; on success record the match and
    continue after it.  [s] is the text from [lastIndex] on; [fuel]
    bounds the number of attempts. *)
Fixpoint execAll (max fuel : nat) (s : jsstring) : list jsstring :=
  match fuel with
  | O => []
  | S fuel' =>
      match s with
      | [] => []
      | _ :: rest =>
          match dotRun max s with
          | [] => execAll max fuel' rest
          | m => m :: execAll max fuel' (skipn (length m) s)
          end
      end
  end.

(** [String.prototype.match] with a global pattern [.{1,max}]: [null]
    when nothing matches, the array of all matches otherwise.  Every
    attempt consumes a code unit, so [length s] attempts reach the end. *)
Definition matchDot (max : nat) (s : jsstring) : option (list jsstring) :=
  match execAll max (length s) s with
  | [] => None
  | ms => Some ms
  end.

Definition CHUNK_SIZE : nat := 1000.
Definition MAX_CHUNKS : nat := 50.

(** [const allChunks = text.match(/.{1,1000}/g) || [];] *)
Definition allChunks (text : jsstring) : list jsstring :=
  match matchDot CHUNK_SIZE text with
  | Some ms => ms
  | None => []
  end.

(** [allChunks.length > 50 ? allChunks.slice(0, 50) : allChunks] *)
Definition limitChunks (all : list jsstring) : list jsstring :=
  if MAX_CHUNKS <? length all then firstn MAX_CHUNKS all else all.

Definition chunker (text : jsstring) : list jsstring :=
  limitChunks (allChunks text).

End Chunker.

Import Chunker.

(* ================================================================== *)
(** * JavaScript values, thrown values and completions *)
(* ================================================================== *)

Module Value.

(** Plain data values, as a model response or a thrown value can be.
    Numbers are IEEE 754 doubles.  An object is its list of own
    properties in insertion order; exotic objects (proxies, accessors,
    objects overriding [toString]) are not represented. *)
Inductive JSValue : Type :=
| VUndefined
| VNull
| VBool (b : bool)
| VNumber (x : spec_float)
| VString (s : jsstring)
| VArray (elems : list JSValue)
| VObject (props : list (jsstring * JSValue)).

(** The value bound to [key], the last binding winning as in an object
    literal; [None] when the object has no such property. *)
Fixpoint getProp (props : list (jsstring * JSValue)) (key : jsstring)
  : option JSValue :=
  match props with
  | [] => None
  | (k, v) :: rest =>
      match getProp rest key with
      | Some v' => Some v'
      | None => if JS.eqb k key then Some v else None
      end
  end.

(** What a [throw] carries: an [Error] instance with its [message], or
    any other value. *)
Inductive Thrown : Type :=
| ErrorObject (message : jsstring)
| ThrownValue (v : JSValue).

(** How a call or an awaited promise ends. *)
Inductive Completion (A : Type) : Type :=
| Normal (a : A)
| Abrupt (t : Thrown).

Arguments Normal {A} a.
Arguments Abrupt {A} t.

End Value.

Import Value.

(* ================================================================== *)
(** * Data of the collaborators *)
(* ================================================================== *)

Definition Buffer := list Byte.byte.

(** The [File] of the upload: its declared MIME type, size and bytes. *)
Record File : Type := mkFile {
  type : jsstring;
  size : N;
  bytes : Buffer
}.

(** A form field holds a string or a file. *)
Inductive FormDataEntryValue : Type :=
| EntryString (s : jsstring)
| EntryFile (f : File).

Definition FormData := list (jsstring * FormDataEntryValue).

(** [formData.get(name)]: the first value of that name, or [null]. *)
Fixpoint formData_get (formData : FormData) (name : jsstring)
  : option FormDataEntryValue :=
  match formData with
  | [] => None
  | (k, v) :: rest => if JS.eqb k name then Some v else formData_get rest name
  end.

(** Result of pdf-parse: [pdfData.text] may be missing. *)
Record PdfData : Type := mkPdfData { text : option jsstring }.

(** Result of pdf2json, as the [pdfParser_dataReady] handler types it:
    [{ Pages: Array<{ Texts: Array<{ R: Array<{ T: string }> }> }> }],
    each array possibly absent (the handler tests them). *)
Record Run : Type := mkRun { T : jsstring }.
Record TextItem : Type := mkTextItem { R : option (list Run) }.
Record Page : Type := mkPage { Texts : option (list TextItem) }.
Record PdfJson : Type := mkPdfJson { Pages : option (list Page) }.

(** Result of [mammoth.extractRawText]. *)
Record MammothResult : Type := mkMammothResult { value : option jsstring }.

(** How the promise around pdf2json settles: by whichever comes first of
    the armed timer and the two parser events, or by an exception of the
    executor itself. *)
Inductive Pdf2JsonSettle : Type :=
| ExecutorThrows (t : Thrown)
| TimerFirst
| DataErrorFirst (parserError : jsstring)
| DataReadyFirst (pdfData : PdfJson).

(** The options given to [new ChatGroq]. *)
Record ChatGroqFields : Type := mkChatGroqFields {
  apiKey : option jsstring;
  model : jsstring;
  temperature : spec_float
}.

(** A model handle. *)
Record ChatGroq : Type := mkChatGroq { fields : ChatGroqFields }.

(** [new FakeEmbeddings()] has no state of its own. *)
Inductive FakeEmbeddings : Type := mkFakeEmbeddings.

Record Metadata : Type := mkMetadata { id : nat }.

Record Document : Type := mkDocument {
  pageContent : jsstring;
  metadata : Metadata
}.

(** An in-memory vector store: the documents it holds. *)
Record MemoryVectorStore : Type := mkMemoryVectorStore {
  memoryVectors : list Document
}.

Record ChatMessage : Type := mkChatMessage {
  role : jsstring;
  content : jsstring
}.

(** Calls made to the collaborators and to the timer, in order. *)
Inductive Event : Type :=
| EvPdfParse (buffer : Buffer)
| EvPdf2JsonNew
| EvSetTimeout (ms : N)
| EvParseBuffer (buffer : Buffer)
| EvClearTimeout
| EvMammoth (buffer : Buffer)
| EvNewChatGroq (opts : ChatGroqFields)
| EvFromTexts (texts : list jsstring) (metadatas : list Metadata)
| EvGetRelevantDocuments (store : MemoryVectorStore) (k : nat) (query : jsstring)
| EvInvoke (llm : ChatGroq) (messages : list ChatMessage).

Definition History := list Event.

(** The code outside the repository.  A collaborator that does I/O
    answers from the history of calls so far, so that the same call may
    end differently at different times. *)
Record Host : Type := mkHost {
  (** [Number::toString] *)
  Number_toString : spec_float -> jsstring;
  (** [JSON.stringify] of a value that is not [undefined] *)
  JSON_stringify : JSValue -> jsstring;
  (** [buffer.toString("utf-8")] *)
  Buffer_toString_utf8 : Buffer -> jsstring;
  (** [decodeURIComponent]; [None] when it throws a [URIError] *)
  decodeURIComponent : jsstring -> option jsstring;
  (** [process.env.GROQ_API_KEY] *)
  GROQ_API_KEY : option jsstring;
  (** [require("pdf-parse")] followed by [await pdf(buffer)] *)
  pdf : History -> Buffer -> Completion PdfData;
  (** [require("pdf2json")] followed by [new PDFParser(null, 1)] *)
  PDFParser_new : History -> Completion unit;
  (** the executor, [pdfParser.parseBuffer(buffer)] and what follows *)
  parseBuffer : History -> Buffer -> Pdf2JsonSettle;
  (** [require("mammoth")] followed by
      [await mammoth.extractRawText({ buffer })] *)
  mammoth_extractRawText : History -> Buffer -> Completion MammothResult;
  (** [new ChatGroq(opts)] *)
  ChatGroq_new : History -> ChatGroqFields -> Completion ChatGroq;
  (** [await MemoryVectorStore.fromTexts(texts, metadatas, embeddings)] *)
  MemoryVectorStore_fromTexts :
    History -> list jsstring -> list Metadata -> FakeEmbeddings ->
    Completion MemoryVectorStore;
  (** [await vectorStore.asRetriever(k).getRelevantDocuments(query)] *)
  getRelevantDocuments :
    History -> MemoryVectorStore -> nat -> jsstring -> Completion (list Document);
  (** [await llm.invoke(messages)] *)
  invoke : History -> ChatGroq -> list ChatMessage -> Completion JSValue
}.

(* ================================================================== *)
(** * Conversions of values *)
(* ================================================================== *)

Section Conversions.

Variable h : Host.

(** The [TypeError] of a conversion to a primitive that finds no usable
    method (V8's wording). *)
Definition TYPE_ERROR_PRIMITIVE : Thrown :=
  ErrorObject (lit "Cannot convert object to primitive value").

(** [String(v)], which is also the conversion of a template literal.
    An object is converted by its [toString] method, then by [valueOf].
    A plain object inherits both: the inherited [toString] answers
    [[object Object]].  A property of the object's own named [toString]
    hides the inherited method and, being data, cannot be called; the
    conversion then turns to [valueOf], which is hidden in the same way
    or gives the object back, and ends in a [TypeError].  An array is
    joined with commas, [null] and [undefined] elements printing as
    nothing and the others being converted in turn, from left to
    right. *)
Fixpoint ToString (v : JSValue) : Completion jsstring :=
  match v with
  | VUndefined => Normal (lit "undefined")
  | VNull => Normal (lit "null")
  | VBool true => Normal (lit "true")
  | VBool false => Normal (lit "false")
  | VNumber x => Normal (Number_toString h x)
  | VString s => Normal s
  | VArray elems =>
      match
        (fix each (l : list JSValue) : Completion (list jsstring) :=
           match l with
           | [] => Normal []
           | e :: rest =>
               match
                 match e with
                 | VUndefined | VNull => Normal []
                 | _ => ToString e
                 end
               with
               | Abrupt t => Abrupt t
               | Normal s =>
                   match each rest with
                   | Abrupt t => Abrupt t
                   | Normal ss => Normal (s :: ss)
                   end
               end
           end) elems
      with
      | Abrupt t => Abrupt t
      | Normal parts => Normal (join (lit ",") parts)
      end
  | VObject props =>
      match getProp props (lit "toString") with
      | Some _ => Abrupt TYPE_ERROR_PRIMITIVE
      | None => Normal (lit "[object Object]")
      end
  end.

(** [error instanceof Error ? error.message : String(error)] *)
Definition messageOf (error : Thrown) : Completion jsstring :=
  match error with
  | ErrorObject message => Normal message
  | ThrownValue v => ToString v
  end.

End Conversions.

(* ================================================================== *)
(** * The action monad: session cache, call trace, exceptions *)
(* ================================================================== *)

(** [let sessionCache: { vectorStore?, chain?, embeddings?, llm? } = {}] *)
Record SessionCache : Type := mkSessionCache {
  vectorStore : option MemoryVectorStore;
  chain : option ChatGroq;
  embeddings : option FakeEmbeddings;
  llm : option ChatGroq
}.

Definition emptyCache : SessionCache := mkSessionCache None None None None.

Record World : Type := mkWorld {
  sessionCache : SessionCache;
  trace : History
}.

Definition initialWorld : World := mkWorld emptyCache [].

Definition Action (A : Type) : Type := World -> Completion A * World.

Definition ret {A} (a : A) : Action A := fun w => (Normal a, w).

Definition throw {A} (t : Thrown) : Action A := fun w => (Abrupt t, w).

Definition bind {A B} (m : Action A) (k : A -> Action B) : Action B :=
  fun w =>
    match m w with
    | (Normal a, w') => k a w'
    | (Abrupt t, w') => (Abrupt t, w')
    end.

(** [try { body } catch (error) { handler }] *)
Definition tryCatch {A} (body : Action A) (handler : Thrown -> Action A)
  : Action A :=
  fun w =>
    match body w with
    | (Normal a, w') => (Normal a, w')
    | (Abrupt t, w') => handler t w'
    end.

(** Record a call in the trace. *)
Definition emit (ev : Event) : Action unit :=
  fun w => (Normal tt, mkWorld (sessionCache w) (trace w ++ [ev])).

(** Call a collaborator: it answers from the history before the call. *)
Definition perform {A} (ev : Event) (answer : History -> A) : Action A :=
  fun w => (Normal (answer (trace w)),
            mkWorld (sessionCache w) (trace w ++ [ev])).

(** Await a collaborator whose promise may reject. *)
Definition await {A} (ev : Event) (answer : History -> Completion A)
  : Action A :=
  fun w => (answer (trace w), mkWorld (sessionCache w) (trace w ++ [ev])).

(** Evaluate an expression that may throw and touches nothing. *)
Definition evaluate {A} (c : Completion A) : Action A := fun w => (c, w).

Definition readCache : Action SessionCache :=
  fun w => (Normal (sessionCache w), w).

Definition writeCache (c : SessionCache) : Action unit :=
  fun w => (Normal tt, mkWorld c (trace w)).

Declare Scope action_scope.
Delimit Scope action_scope with action.
Notation "x <- m ;; k" := (bind m (fun x => k))
  (at level 61, m at next level, right associativity) : action_scope.
Notation "m ;;; k" := (bind m (fun _ => k))
  (at level 61, right associativity) : action_scope.
Local Open Scope action_scope.

(* ================================================================== *)
(** * [extractText] *)
(* ================================================================== *)

Section Extraction.

Variable h : Host.

Definition MIME_PDF : jsstring := lit "application/pdf".
Definition MIME_TXT : jsstring := lit "text/plain".
Definition MIME_DOCX : jsstring :=
  lit "application/vnd.openxmlformats-officedocument.wordprocessingml.document".

Definition MSG_PDF_EMPTY : jsstring :=
  lit "PDF appears to be empty or contains no extractable text".
Definition MSG_DOCX_EMPTY : jsstring :=
  lit "DOCX appears to be empty or contains no extractable text".
Definition MSG_TIMEOUT : jsstring :=
  lit "PDF parsing timeout - the file may be too large or corrupted".
Definition MSG_ENCRYPTED : jsstring :=
  lit "This PDF appears to be password-protected or encrypted. Please remove the password and try again.".
Definition MSG_UNSUPPORTED : jsstring := lit "Unsupported file type".

(** [!s || s.trim().length === 0] on an optional string. *)
Definition isBlank (s : option jsstring) : bool :=
  match s with
  | None => true
  | Some s => match s with [] => true | _ => length (trim s) =? 0 end
  end.

Definition orEmpty (s : option jsstring) : jsstring :=
  match s with Some s => s | None => [] end.

(** The body of [for (const run of text.R)]. *)
Definition runText (run : Run) : jsstring :=
  match T run with
  | [] => []
  | t =>
      match decodeURIComponent h t with
      | Some decoded => decoded ++ lit " "
      | None => t ++ lit " "
      end
  end.

(** The body of [for (const text of page.Texts)]. *)
Definition textItemText (item : TextItem) : jsstring :=
  match R item with
  | Some runs => concat (map runText runs)
  | None => []
  end.

(** The body of [for (const page of pdfData.Pages)]. *)
Definition pageText (page : Page) : jsstring :=
  match Texts page with
  | Some items => concat (map textItemText items) ++ [0x0A%N]
  | None => []
  end.

(** [fullText] once the [pdfParser_dataReady] handler has walked the
    pages. *)
Definition fullTextOf (pdfData : PdfJson) : jsstring :=
  match Pages pdfData with
  | Some pages => concat (map pageText pages)
  | None => []
  end.

Definition FALLBACK_TIMEOUT_MS : N := 30000.

(** The promise of lines 41-93.  The executor arms the timer, registers
    the two handlers and starts the parser; the promise settles with the
    first of the timer and the parser events.  With the handler's
    argument typed as above, the handler's own [try] cannot throw. *)
Definition fallbackPromise (buffer : Buffer) : Action jsstring :=
  emit (EvSetTimeout FALLBACK_TIMEOUT_MS) ;;;
  settle <- perform (EvParseBuffer buffer) (fun past => parseBuffer h past buffer) ;;
  match settle with
  | ExecutorThrows t => throw t
  | TimerFirst => throw (ErrorObject MSG_TIMEOUT)
  | DataErrorFirst parserError =>
      emit EvClearTimeout ;;;
      throw (ErrorObject (lit "PDF parsing error: " ++ parserError))
  | DataReadyFirst pdfData =>
      emit EvClearTimeout ;;;
      let fullText := fullTextOf pdfData in
      if isBlank (Some fullText)
      then throw (ErrorObject MSG_PDF_EMPTY)
      else ret (trim fullText)
  end.

(** The message of the error thrown when the fallback cannot start. *)
Definition fallbackFailureMessage (errorMessage fallbackErrorMsg : jsstring)
  : jsstring :=
  lit "PDF parsing failed due to file structure issues (bad XRef entry). "
  ++ lit "This may happen with certain PDF formats. "
  ++ lit "Please try: 1) Re-saving the PDF in a different application, "
  ++ lit "2) Converting to DOCX or TXT format, or 3) Using a different PDF file. "
  ++ lit "Technical details: " ++ errorMessage
  ++ lit ". Fallback error: " ++ fallbackErrorMsg.

(** The [catch (error)] clause of the PDF branch, lines 31-110.  The
    inner [try] returns the promise without awaiting it, so a rejection
    of the promise is not seen by [catch (fallbackError)]: it reaches the
    caller of [extractText] as it is. *)
Definition pdfCatch (buffer : Buffer) (error : Thrown) : Action jsstring :=
  errorMessage <- evaluate (messageOf h error) ;;
  if includes errorMessage (lit "XRef") || includes errorMessage (lit "xref")
  then
    promise <-
      tryCatch
        (await EvPdf2JsonNew (PDFParser_new h) ;;;
         ret (fallbackPromise buffer))
        (fun fallbackError =>
           fallbackErrorMsg <- evaluate (messageOf h fallbackError) ;;
           throw (ErrorObject
                    (fallbackFailureMessage errorMessage fallbackErrorMsg))) ;;
    promise
  else if includes errorMessage (lit "password")
          || includes errorMessage (lit "encrypted")
  then throw (ErrorObject MSG_ENCRYPTED)
  else
    throw (ErrorObject
             (lit "Failed to parse PDF. The file may be corrupted or in an unsupported format: "
              ++ errorMessage)).

Definition extractText (file : File) : Action jsstring :=
  let buffer := bytes file in
  if JS.eqb (type file) MIME_PDF then
    tryCatch
      (pdfData <- await (EvPdfParse buffer) (fun past => pdf h past buffer) ;;
       if isBlank (text pdfData)
       then throw (ErrorObject MSG_PDF_EMPTY)
       else ret (orEmpty (text pdfData)))
      (pdfCatch buffer)
  else if JS.eqb (type file) MIME_TXT then
    ret (Buffer_toString_utf8 h buffer)
  else if JS.eqb (type file) MIME_DOCX then
    tryCatch
      (result <- await (EvMammoth buffer)
                   (fun past => mammoth_extractRawText h past buffer) ;;
       if isBlank (value result)
       then throw (ErrorObject MSG_DOCX_EMPTY)
       else ret (orEmpty (value result)))
      (fun error =>
         message <- evaluate (messageOf h error) ;;
         throw (ErrorObject (lit "Failed to parse DOCX file: " ++ message)))
  else
    throw (ErrorObject MSG_UNSUPPORTED).

End Extraction.

(* ================================================================== *)
(** * [createGroqAgent] of [src/lib/langchain.ts] *)
(* ================================================================== *)

Module Langchain.

Section Agent.

Variable h : Host.

(** The object [{ chain, embeddings, llm }] it returns. *)
Record GroqAgent : Type := mkGroqAgent {
  chain : ChatGroq;
  embeddings : FakeEmbeddings;
  llm : ChatGroq
}.

(** The double nearest to [0.3]. *)
Definition TEMPERATURE : spec_float :=
  S754_finite false 5404319552844595%positive (-54)%Z.

Definition chatGroqFields (key : option jsstring) : ChatGroqFields :=
  mkChatGroqFields key (lit "llama-3.1-8b-instant") TEMPERATURE.

(** The [BufferMemory] it also builds is never used and is left out. *)
Definition createGroqAgent : Action GroqAgent :=
  let opts := chatGroqFields (GROQ_API_KEY h) in
  llm <- await (EvNewChatGroq opts) (fun past => ChatGroq_new h past opts) ;;
  let embeddings := mkFakeEmbeddings in
  let chain := llm in
  ret (mkGroqAgent chain embeddings llm).

End Agent.

End Langchain.

(* ================================================================== *)
(** * [handlePdfUpload] *)
(* ================================================================== *)

Section Actions.

Variable h : Host.

Definition MSG_NO_FILE : jsstring := lit "No file provided".
Definition MSG_SUCCESS : jsstring :=
  lit "Document uploaded and processed successfully!".
Definition PREFIX_EXTRACT_FAILED : jsstring :=
  lit "Failed to extract text from document: ".
Definition PREFIX_PROCESS_FAILED : jsstring :=
  lit "Failed to process document: ".

(** [extractText(file)] on the value [formData.get("file") as File]: a
    string field has no [arrayBuffer] method, and line 19 throws a
    [TypeError] (V8's wording). *)
Definition extractTextOf (file : FormDataEntryValue) : Action jsstring :=
  match file with
  | EntryFile f => extractText h f
  | EntryString _ =>
      throw (ErrorObject (lit "file.arrayBuffer is not a function"))
  end.

(** [chunks.map((_chunk, i) => ({ id: i }))] *)
Definition metadatasOf (chunks : list jsstring) : list Metadata :=
  map mkMetadata (seq 0 (length chunks)).

(** The [try] block of lines 158-176: create the agent, build the
    vector store and, last, replace the cache. *)
Definition indexBody (chunks : list jsstring) : Action jsstring :=
  agent <- Langchain.createGroqAgent h ;;
  vectorStore <-
    await (EvFromTexts chunks (metadatasOf chunks))
      (fun past =>
         MemoryVectorStore_fromTexts h past chunks (metadatasOf chunks)
           (Langchain.embeddings agent)) ;;
  writeCache (mkSessionCache (Some vectorStore)
                (Some (Langchain.chain agent))
                (Some (Langchain.embeddings agent))
                (Some (Langchain.llm agent))) ;;;
  ret MSG_SUCCESS.

(** Lines 158-180, with the [catch] clause. *)
Definition buildIndex (chunks : list jsstring) : Action jsstring :=
  tryCatch (indexBody chunks)
    (fun error =>
       message <- evaluate (messageOf h error) ;;
       ret (PREFIX_PROCESS_FAILED ++ message)).

(** [const file = formData.get("file") as File] when it passes the test
    [if (!file)]: a missing field and an empty string do not. *)
Definition providedFile (formData : FormData) : option FormDataEntryValue :=
  match formData_get formData (lit "file") with
  | None | Some (EntryString []) => None
  | Some file => Some file
  end.

Definition handlePdfUpload (formData : FormData) : Action jsstring :=
  match providedFile formData with
  | None => ret MSG_NO_FILE
  | Some file =>
      extracted <-
        tryCatch
          (text <- extractTextOf file ;; ret (inl text))
          (fun error =>
             message <- evaluate (messageOf h error) ;;
             ret (inr (PREFIX_EXTRACT_FAILED ++ message))) ;;
      match extracted with
      | inr failure => ret failure
      | inl text => buildIndex (chunker text)
      end
  end.

(* ================================================================== *)
(** * [chatWithBot] *)
(* ================================================================== *)

Definition MSG_UPLOAD_FIRST : jsstring := lit "Please upload a document first.".

Definition systemPrompt : jsstring :=
  lit "You are a helpful assistant that answers questions based on the provided context from a document.".

Definition LF : jsstring := [0x0A%N].

Definition userMessageOf (context message : jsstring) : jsstring :=
  lit "Based on the following context from the document, answer the question:"
  ++ LF ++ LF ++ lit "Context:" ++ LF ++ context
  ++ LF ++ LF ++ lit "Question: " ++ message
  ++ LF ++ LF ++ lit "Answer:".

(** [v.key] for a key that is neither an index nor [length]: [None]
    when the read throws a [TypeError], which it does on [null] and
    [undefined]; a primitive or an array has no such property and the
    read gives [undefined]. *)
Definition memberOf (v : JSValue) (key : jsstring) : option JSValue :=
  match v with
  | VNull | VUndefined => None
  | VObject props =>
      Some (match getProp props key with Some x => x | None => VUndefined end)
  | _ => Some VUndefined
  end.

(** [response.content], with V8's wording of the [TypeError]. *)
Definition getContent (response : JSValue) : Action JSValue :=
  match memberOf response (lit "content") with
  | Some v => ret v
  | None =>
      throw (ErrorObject
               (lit "Cannot read properties of "
                ++ match response with
                   | VNull => lit "null"
                   | _ => lit "undefined"
                   end
                ++ lit " (reading 'content')"))
  end.

(** The callback of [content.map], lines 219-225. *)
Definition partText (part : JSValue) : Completion jsstring :=
  match part with
  | VString s => Normal s
  | VObject props =>
      match getProp props (lit "text") with
      | Some v => ToString h v
      | None => Normal []
      end
  | _ => Normal []
  end.

(** [content.map(callback)]: the callback on each part in turn; the
    first exception ends the loop. *)
Fixpoint mapParts (parts : list JSValue) : Completion (list jsstring) :=
  match parts with
  | [] => Normal []
  | part :: rest =>
      match partText part with
      | Abrupt t => Abrupt t
      | Normal s =>
          match mapParts rest with
          | Abrupt t => Abrupt t
          | Normal ss => Normal (s :: ss)
          end
      end
  end.

(** [a || b] on strings. *)
Definition orElse (a b : jsstring) : jsstring :=
  match a with [] => b | _ => a end.

(** Lines 210-230: the answer taken from the model's response. *)
Definition answerOf (response : JSValue) : Action jsstring :=
  match response with
  | VString s => ret s
  | _ =>
      content <- getContent response ;;
      match content with
      | VString s => ret s
      | VArray parts =>
          texts <- evaluate (mapParts parts) ;;
          ret (join [] texts)
      | _ =>
          text <- evaluate (ToString h content) ;;
          ret (orElse text (JSON_stringify h response))
      end
  end.

Definition RETRIEVE_K : nat := 3.

(** The two messages given to [llm.invoke], lines 192-208. *)
Definition promptOf (docs : list Document) (message : jsstring)
  : list ChatMessage :=
  let context := join (LF ++ LF) (map pageContent docs) in
  [ mkChatMessage (lit "system") systemPrompt;
    mkChatMessage (lit "user") (userMessageOf context message) ].

Definition chatWithBot (message : jsstring) : Action jsstring :=
  cache <- readCache ;;
  match vectorStore cache, llm cache with
  | Some vectorStore, Some llm =>
      docs <- await (EvGetRelevantDocuments vectorStore RETRIEVE_K message)
                (fun past =>
                   getRelevantDocuments h past vectorStore RETRIEVE_K message) ;;
      let messages := promptOf docs message in
      response <- await (EvInvoke llm messages)
                    (fun past => invoke h past llm messages) ;;
      answerOf response
  | _, _ => ret MSG_UPLOAD_FIRST
  end.

End Actions.

(* ================================================================== *)
(** * Concrete hosts and inputs for the examples *)
(* ================================================================== *)

Module Demo.

(** UTF-8 decoding of a buffer of ASCII bytes; any other byte is shown
    as U+FFFD. *)
Definition asciiDecode (buffer : Buffer) : jsstring :=
  map (fun b => let n := Byte.to_N b in
                if (n <? 128)%N then n else 0xFFFD%N) buffer.

(** UTF-8 encoding of an ASCII literal. *)
Definition asciiBytes (s : string) : Buffer :=
  map byte_of_ascii (list_ascii_of_string s).

(** Exact on zeros, infinities and NaN; the examples print no other
    number. *)
Definition numberToString (x : spec_float) : jsstring :=
  match x with
  | S754_zero _ => lit "0"
  | S754_infinity false => lit "Infinity"
  | S754_infinity true => lit "-Infinity"
  | S754_nan => lit "NaN"
  | S754_finite _ _ _ => lit "0"
  end.

(** The identity on a string without a percent sign; the examples
    contain no escape. *)
Definition decodeNoEscape (s : jsstring) : option jsstring :=
  if existsb (N.eqb 0x25) s then None else Some s.

Definition storeOf (texts : list jsstring) (metadatas : list Metadata)
  : MemoryVectorStore :=
  mkMemoryVectorStore (map (fun p => mkDocument (fst p) (snd p))
                         (combine texts metadatas)).

(** A host in which the primary PDF parser ends with [pdfResult], the
    pdf2json promise settles as [settle], the model answers [response],
    and everything else succeeds: the index holds the given texts and
    the retriever returns its first [k] documents. *)
Definition host (pdfResult : Completion PdfData) (settle : Pdf2JsonSettle)
    (response : JSValue) : Host :=
  {| Number_toString := numberToString;
     JSON_stringify := fun _ => lit "{}";
     Buffer_toString_utf8 := asciiDecode;
     decodeURIComponent := decodeNoEscape;
     GROQ_API_KEY := Some (lit "gsk_demo");
     pdf := fun _ _ => pdfResult;
     PDFParser_new := fun _ => Normal tt;
     parseBuffer := fun _ _ => settle;
     mammoth_extractRawText :=
       fun _ buffer => Normal (mkMammothResult (Some (asciiDecode buffer)));
     ChatGroq_new := fun _ opts => Normal (mkChatGroq opts);
     MemoryVectorStore_fromTexts :=
       fun _ texts metadatas _ => Normal (storeOf texts metadatas);
     getRelevantDocuments :=
       fun _ store k _ => Normal (firstn k (memoryVectors store));
     invoke := fun _ _ _ => Normal response |}.

Definition pdfOk (s : string) : Completion PdfData :=
  Normal (mkPdfData (Some (lit s))).

Definition pdfError (s : string) : Completion PdfData :=
  Abrupt (ErrorObject (lit s)).

Definition onePage (s : string) : PdfJson :=
  mkPdfJson (Some [mkPage (Some [mkTextItem (Some [mkRun (lit s)])])]).

Definition fileOf (mime body : string) : File :=
  mkFile (lit mime) (N.of_nat (String.length body)) (asciiBytes body).

Definition formOf (file : File) : FormData := [(lit "file", EntryFile file)].

(** A world in which a document has been uploaded. *)
Definition loadedWorld : World :=
  let handle := mkChatGroq (Langchain.chatGroqFields (Some (lit "gsk_demo"))) in
  mkWorld
    (mkSessionCache
       (Some (storeOf [lit "first document"] [mkMetadata 0]))
       (Some handle) (Some mkFakeEmbeddings) (Some handle))
    [].

(** A response whose content is a list of mixed parts. *)
Definition mixedResponse : JSValue :=
  VObject
    [(lit "content",
      VArray [ VString (lit "The answer ");
               VObject [(lit "type", VString (lit "image_url"))];
               VObject [(lit "type", VString (lit "text"));
                        (lit "text", VString (lit "is 42."))];
               VNull ])].

End Demo.

(* ================================================================== *)
(** * The client: [DocumentUpload] and [ChatInterface] *)
(* ================================================================== *)

(** The event handlers of [src/app/components/ChatInterface.tsx] that
    call the server actions.  A handler is given the component state of
    the render it closes over and yields, in order, the state setters
    and callbacks it calls; [runUpload] and [runChat] give the state the
    component has once they are applied.  [e.preventDefault()] and
    [e.stopPropagation()] in the drag handlers are not represented. *)

Module Client.

(** What happens to one call of a server action on its way: the request
    may not reach the server, or the response may not come back. *)
Inductive Transport : Type :=
| Delivered
| RequestLost (t : Thrown)
| ResponseLost (t : Thrown).

(** The browser side outside the repository: the transport of server
    actions, and the clock, read for the [n]-th time. *)
Record Runtime : Type := mkRuntime {
  transport : History -> Transport;
  Date_now : nat -> N
}.

(** [await action(...)] from the client.  An exception of the action
    itself reaches the client as a rejection. *)
Definition callServer {A} (rt : Runtime) (action : Action A) : Action A :=
  fun w =>
    match transport rt (trace w) with
    | RequestLost t => (Abrupt t, w)
    | Delivered => action w
    | ResponseLost t => (Abrupt t, snd (action w))
    end.

(** ** [DocumentUpload] *)

Record UploadState : Type := mkUploadState {
  dragActive : bool;
  uploadedFile : option File;
  isUploading : bool;
  uploadError : option jsstring
}.

Inductive UploadEffect : Type :=
| SetDragActive (b : bool)
| SetUploadedFile (file : File)
| SetIsUploading (b : bool)
| SetUploadError (e : option jsstring)
| Alert (message : jsstring)
| OnDocumentUpload (file : File)
| OnStartChat.

Definition applyUpload (st : UploadState) (e : UploadEffect) : UploadState :=
  match e with
  | SetDragActive b =>
      mkUploadState b (uploadedFile st) (isUploading st) (uploadError st)
  | SetUploadedFile file =>
      mkUploadState (dragActive st) (Some file) (isUploading st) (uploadError st)
  | SetIsUploading b =>
      mkUploadState (dragActive st) (uploadedFile st) b (uploadError st)
  | SetUploadError err =>
      mkUploadState (dragActive st) (uploadedFile st) (isUploading st) err
  | Alert _ | OnDocumentUpload _ | OnStartChat => st
  end.

Definition runUpload (effects : list UploadEffect) (st : UploadState)
  : UploadState :=
  fold_left applyUpload effects st.

Definition allowedTypes : list jsstring :=
  [ lit "application/pdf";
    lit "text/plain";
    lit "application/vnd.openxmlformats-officedocument.wordprocessingml.document" ].

(** [10 * 1024 * 1024] *)
Definition MAX_FILE_SIZE : N := 10 * 1024 * 1024.

(** [Array.prototype.includes] on an array of strings. *)
Definition arrayIncludes (a : list jsstring) (x : jsstring) : bool :=
  existsb (JS.eqb x) a.

Definition handleFile (file : File) : list UploadEffect :=
  if negb (arrayIncludes allowedTypes (type file)) then
    [Alert (lit "Please upload a PDF, TXT, or DOCX file")]
  else if (MAX_FILE_SIZE <? size file)%N then
    [Alert (lit "File size must be less than 10MB")]
  else
    [SetUploadedFile file; OnDocumentUpload file].

(** [handleDrop], given [e.dataTransfer.files]. *)
Definition handleDrop (files : list File) : list UploadEffect :=
  SetDragActive false ::
  match files with
  | file :: _ => handleFile file
  | [] => []
  end.

(** [handleChange], given [e.target.files]. *)
Definition handleChange (files : list File) : list UploadEffect :=
  match files with
  | file :: _ => handleFile file
  | [] => []
  end.

(** [handleDrag], given [e.type]. *)
Definition handleDrag (eventType : jsstring) : list UploadEffect :=
  if JS.eqb eventType (lit "dragenter") || JS.eqb eventType (lit "dragover")
  then [SetDragActive true]
  else if JS.eqb eventType (lit "dragleave")
  then [SetDragActive false]
  else [].

Definition MSG_UPLOAD_FAILED : jsstring :=
  lit "Failed to upload document. Please try again.".

(** [startChat]: the effects, and the server after the call. *)
Definition startChat (rt : Runtime) (h : Host) (st : UploadState) (w : World)
  : list UploadEffect * World :=
  match uploadedFile st with
  | None => ([], w)
  | Some file =>
      let formData := [(lit "file", EntryFile file)] in
      let before := [SetIsUploading true; SetUploadError None] in
      let finally := [SetIsUploading false] in
      match callServer rt (handlePdfUpload h formData) w with
      | (Normal result, w') =>
          if JS.eqb result (lit "Document uploaded and processed successfully!")
          then (before ++ [OnStartChat] ++ finally, w')
          else (before
                ++ [SetUploadError
                      (Some (orElse result (lit "Failed to process document")))]
                ++ finally, w')
      | (Abrupt _, w') =>
          (before ++ [SetUploadError (Some MSG_UPLOAD_FAILED)] ++ finally, w')
      end
  end.

(** ** [ChatInterface] *)

Inductive Role : Type := user | assistant.

Record Message : Type := mkMessage {
  id : jsstring;
  role : Role;
  content : jsstring;
  timestamp : N
}.

Record ChatState : Type := mkChatState {
  messages : list Message;
  inputValue : jsstring;
  isLoading : bool
}.

Inductive ChatEffect : Type :=
| PreventDefault
| AppendMessage (m : Message)
| SetInputValue (s : jsstring)
| SetIsLoading (b : bool).

Definition applyChat (st : ChatState) (e : ChatEffect) : ChatState :=
  match e with
  | PreventDefault => st
  | AppendMessage m => mkChatState (messages st ++ [m]) (inputValue st) (isLoading st)
  | SetInputValue s => mkChatState (messages st) s (isLoading st)
  | SetIsLoading b => mkChatState (messages st) (inputValue st) b
  end.

Definition runChat (effects : list ChatEffect) (st : ChatState) : ChatState :=
  fold_left applyChat effects st.

(** [n.toString()] for a count of milliseconds: its decimal digits. *)
Definition toDecimal (n : N) : jsstring :=
  lit (DecimalString.NilEmpty.string_of_uint (N.to_uint n)).

Definition MSG_SORRY : jsstring :=
  lit "Sorry, there was an error processing your question. Please try again.".

(** [handleSubmit]; [reads] counts the readings of the clock so far.
    Both [Date.now()] and [new Date()] read the clock. *)
Definition handleSubmit (rt : Runtime) (h : Host) (st : ChatState)
    (reads : nat) (w : World) : list ChatEffect * World :=
  if match trim (inputValue st) with [] => true | _ => false end
     || isLoading st
  then ([PreventDefault], w)
  else
    let userMessage :=
      mkMessage (toDecimal (Date_now rt reads)) user (inputValue st)
        (Date_now rt (reads + 1)) in
    let question := inputValue st in
    let before :=
      [PreventDefault; AppendMessage userMessage; SetInputValue [];
       SetIsLoading true] in
    let finally := [SetIsLoading false] in
    match callServer rt (chatWithBot h question) w with
    | (Normal response, w') =>
        let assistantMessage :=
          mkMessage (toDecimal (Date_now rt (reads + 2) + 1)) assistant
            response (Date_now rt (reads + 3)) in
        (before ++ [AppendMessage assistantMessage] ++ finally, w')
    | (Abrupt _, w') =>
        let errorMessage :=
          mkMessage (toDecimal (Date_now rt (reads + 2) + 1)) assistant
            MSG_SORRY (Date_now rt (reads + 3)) in
        (before ++ [AppendMessage errorMessage] ++ finally, w')
    end.

End Client.

Module DemoClient.

(** A runtime that delivers every call; the clock advances by one
    millisecond at each reading. *)
Definition runtime : Client.Runtime :=
  Client.mkRuntime (fun _ => Client.Delivered)
    (fun n => (1700000000000 + N.of_nat n)%N).

(** A runtime on which no request reaches the server. *)
Definition offline : Client.Runtime :=
  Client.mkRuntime
    (fun _ => Client.RequestLost (ErrorObject (lit "Failed to fetch")))
    (fun n => (1700000000000 + N.of_nat n)%N).

Definition idle : Client.UploadState :=
  Client.mkUploadState false None false None.

Definition asking (question : string) : Client.ChatState :=
  Client.mkChatState [] (lit question) false.

End DemoClient.

(* ================================================================== *)
(** * Hosts in which a collaborator fails *)
(* ================================================================== *)

Module Scenario.

(** [base] with one collaborator replaced. *)
Definition withPDFParser_new (base : Host) (f : History -> Completion unit)
  : Host :=
  mkHost (Number_toString base) (JSON_stringify base)
    (Buffer_toString_utf8 base) (decodeURIComponent base) (GROQ_API_KEY base)
    (pdf base) f (parseBuffer base) (mammoth_extractRawText base)
    (ChatGroq_new base) (MemoryVectorStore_fromTexts base)
    (getRelevantDocuments base) (invoke base).

Definition withMammoth (base : Host)
    (f : History -> Buffer -> Completion MammothResult) : Host :=
  mkHost (Number_toString base) (JSON_stringify base)
    (Buffer_toString_utf8 base) (decodeURIComponent base) (GROQ_API_KEY base)
    (pdf base) (PDFParser_new base) (parseBuffer base) f
    (ChatGroq_new base) (MemoryVectorStore_fromTexts base)
    (getRelevantDocuments base) (invoke base).

Definition withRetriever (base : Host)
    (f : History -> MemoryVectorStore -> nat -> jsstring ->
         Completion (list Document)) : Host :=
  mkHost (Number_toString base) (JSON_stringify base)
    (Buffer_toString_utf8 base) (decodeURIComponent base) (GROQ_API_KEY base)
    (pdf base) (PDFParser_new base) (parseBuffer base)
    (mammoth_extractRawText base)
    (ChatGroq_new base) (MemoryVectorStore_fromTexts base)
    f (invoke base).

Definition withInvoke (base : Host)
    (f : History -> ChatGroq -> list ChatMessage -> Completion JSValue)
  : Host :=
  mkHost (Number_toString base) (JSON_stringify base)
    (Buffer_toString_utf8 base) (decodeURIComponent base) (GROQ_API_KEY base)
    (pdf base) (PDFParser_new base) (parseBuffer base)
    (mammoth_extractRawText base)
    (ChatGroq_new base) (MemoryVectorStore_fromTexts base)
    (getRelevantDocuments base) f.

Definition plain : Host := Demo.host (Demo.pdfOk "unused") TimerFirst VNull.

(** [require("pdf2json")] fails. *)
Definition noPdf2json (pdfResult : Completion PdfData) : Host :=
  withPDFParser_new (Demo.host pdfResult TimerFirst VNull)
    (fun _ => Abrupt (ErrorObject (lit "Cannot find module 'pdf2json'"))).

(** mammoth rejects the file. *)
Definition corruptDocx : Host :=
  withMammoth plain
    (fun _ _ => Abrupt (ErrorObject (lit "Can't find end of central directory"))).

(** The retriever throws a value that is not an [Error]. *)
Definition retrieverDown : Host :=
  withRetriever plain (fun _ _ _ _ => Abrupt (ThrownValue (VString (lit "down")))).

(** The model call is refused. *)
Definition modelDown : Host :=
  withInvoke plain (fun _ _ _ => Abrupt (ErrorObject (lit "429 rate limit"))).

End Scenario.

(* ================================================================== *)
(** * Vocabulary of the statements *)
(* ================================================================== *)

(** The text without its line terminators. *)
Definition stripLineTerminators (s : jsstring) : jsstring :=
  filter (fun c => negb (isLineTerminator c)) s.

Definition noLineTerminator (s : jsstring) : Prop :=
  Forall (fun c => isLineTerminator c = false) s.

(** An action that leaves the session cache as it found it. *)
Definition keepsCache {A} (m : Action A) : Prop :=
  forall w, sessionCache (snd (m w)) = sessionCache w.

(** A thrown value of which the catch handlers can compute the message:
    an [Error], or a value that [String] converts. *)
Definition printable (h : Host) (t : Thrown) : Prop :=
  exists message, messageOf h t = Normal message.

(** What a catch handler of [handlePdfUpload] ends with: the message of
    the error after a fixed prefix, or the exception of the conversion
    when the message cannot be computed. *)
Definition caught (h : Host) (prefix : jsstring) (error : Thrown)
  : Completion jsstring :=
  match messageOf h error with
  | Normal message => Normal (prefix ++ message)
  | Abrupt t => Abrupt t
  end.

(** A response on which every conversion to a string that the answer
    needs returns: the [text] property of each object part of an array
    [content], or the [content] itself when it is neither a string nor
    an array. *)
Definition answerConverts (h : Host) (response : JSValue) : Prop :=
  match response with
  | VString _ => True
  | _ =>
      match memberOf response (lit "content") with
      | None | Some (VString _) => True
      | Some (VArray parts) =>
          Forall (fun part =>
                    forall props v,
                      part = VObject props ->
                      getProp props (lit "text") = Some v ->
                      exists s, ToString h v = Normal s) parts
      | Some content => exists s, ToString h content = Normal s
      end
  end.

(** What a part of an array [content] contributes to the answer, in the
    words of the specification: a string part contributes itself, a
    text-bearing object part the string of its [text] property, any
    other part nothing. *)
Inductive PartContribution (h : Host) : JSValue -> jsstring -> Prop :=
| StringPart (s : jsstring) :
    PartContribution h (VString s) s
| TextPart (props : list (jsstring * JSValue)) (v : JSValue) (s : jsstring) :
    getProp props (lit "text") = Some v ->
    ToString h v = Normal s ->
    PartContribution h (VObject props) s
| OtherPart (part : JSValue) :
    (forall s, part <> VString s) ->
    (forall props, part = VObject props -> getProp props (lit "text") = None) ->
    PartContribution h part [].

(** An action that only appends to the trace, and only events that
    satisfy [P]. *)
Definition appendsOnly {A} (P : Event -> Prop) (m : Action A) : Prop :=
  forall w, exists added,
    trace (snd (m w)) = trace w ++ added /\ Forall P added.

(** Calls to the document parsers and to the timer of the fallback. *)
Definition parserEvent (ev : Event) : Prop :=
  match ev with
  | EvPdfParse _ | EvPdf2JsonNew | EvParseBuffer _ | EvClearTimeout
  | EvMammoth _ => True
  | EvSetTimeout ms => ms = 30000%N
  | _ => False
  end.

(** What an upload may call: the parsers, the model constructor, and the
    index builder on at most 50 texts of 1 to 1000 code units each,
    numbered from 0. *)
Definition uploadEvent (ev : Event) : Prop :=
  match ev with
  | EvGetRelevantDocuments _ _ _ | EvInvoke _ _ => False
  | EvFromTexts texts metadatas =>
      length texts <= 50 /\
      Forall (fun c => 1 <= length c <= 1000) texts /\
      map id metadatas = seq 0 (length texts)
  | EvNewChatGroq _ => True
  | _ => parserEvent ev
  end.

(** A pdf2json result in which no run carries any text. *)
Definition noRunText (pdfData : PdfJson) : Prop :=
  forall pages page items item runs run,
    Pages pdfData = Some pages -> In page pages ->
    Texts page = Some items -> In item items ->
    R item = Some runs -> In run runs ->
    T run = [].

(** A string with no white space or line terminator at either end. *)
Definition trimmed (s : jsstring) : Prop :=
  match s with
  | [] => True
  | c :: _ => isTrimmable c = false /\ isTrimmable (last s c) = false
  end.

(* ================================================================== *)
(** * Properties of JavaScript strings *)
(* ================================================================== *)

Lemma eqb_refl (a : jsstring) : JS.eqb a a = true.
Proof.
  induction a as [|x a IH]; simpl; [reflexivity|].
  now rewrite N.eqb_refl, IH.
Qed.

Lemma eqb_eq (a b : jsstring) : JS.eqb a b = true <-> a = b.
Proof.
  split; [|intros ->; apply eqb_refl].
  revert b; induction a as [|x a IH]; intros [|y b]; simpl; try discriminate.
  - reflexivity.
  - rewrite andb_true_iff, N.eqb_eq. intros [-> Hab]. f_equal. now apply IH.
Qed.

Lemma eqb_neq (a b : jsstring) : JS.eqb a b = false <-> a <> b.
Proof.
  rewrite <- eqb_eq. destruct (JS.eqb a b); split; congruence.
Qed.

Lemma isPrefixOf_refl (s : jsstring) : isPrefixOf s s.
Proof. exists []. now rewrite app_nil_r. Qed.

Lemma isPrefixOf_length (p s : jsstring) :
  isPrefixOf p s -> length p <= length s.
Proof. intros [r ->]. rewrite length_app. lia. Qed.

(* ================================================================== *)
(** * Properties of the chunker *)
(* ================================================================== *)

Section ChunkerFacts.

Variable max : nat.

Lemma dotRun_length (s : jsstring) : length (dotRun max s) <= max.
Proof.
  revert s. induction max as [|m IH]; intros [|c s]; simpl; try lia.
  destruct (isLineTerminator c); simpl; [lia|]. specialize (IH s). lia.
Qed.

Lemma dotRun_split (s : jsstring) :
  dotRun max s ++ skipn (length (dotRun max s)) s = s.
Proof.
  revert s. induction max as [|m IH]; intros [|c s]; simpl; try reflexivity.
  destruct (isLineTerminator c); simpl; [reflexivity|]. now rewrite IH.
Qed.

Lemma dotRun_clean (s : jsstring) : noLineTerminator (dotRun max s).
Proof.
  revert s. induction max as [|m IH]; intros [|c s]; simpl; try constructor.
  destruct (isLineTerminator c) eqn:E; constructor; [exact E | apply IH].
Qed.

Lemma dotRun_firstn (s : jsstring) :
  noLineTerminator s -> dotRun max s = firstn max s.
Proof.
  revert s. induction max as [|m IH]; intros [|c s] H; simpl; try reflexivity.
  inversion H as [|? ? Hc Hs]; subst. rewrite Hc. f_equal. now apply IH.
Qed.

Lemma strip_clean (s : jsstring) :
  noLineTerminator s -> stripLineTerminators s = s.
Proof.
  induction 1 as [|c s Hc _ IH]; simpl; [reflexivity|].
  rewrite Hc; simpl. now rewrite IH.
Qed.

Lemma strip_app (a b : jsstring) :
  stripLineTerminators (a ++ b) =
  stripLineTerminators a ++ stripLineTerminators b.
Proof. apply filter_app. Qed.

Hypothesis max_pos : 0 < max.

Lemma dotRun_nil (c : N) (s : jsstring) :
  dotRun max (c :: s) = [] -> isLineTerminator c = true.
Proof.
  destruct max as [|m]; [lia|]. simpl.
  destruct (isLineTerminator c); [reflexivity | discriminate].
Qed.

(** Every match is between 1 and [max] code units long. *)
Lemma execAll_lengths (fuel : nat) (s : jsstring) :
  Forall (fun m => 1 <= length m <= max) (execAll max fuel s).
Proof.
  revert s. induction fuel as [|f IH]; intros s; simpl; [constructor|].
  destruct s as [|c rest]; [constructor|].
  destruct (dotRun max (c :: rest)) as [|x m] eqn:E; [apply IH|].
  constructor; [|apply IH].
  pose proof (dotRun_length (c :: rest)) as L. rewrite E in L.
  simpl in *. lia.
Qed.

(** With enough attempts, the matches are the text without its line
    terminators, cut in pieces: nothing else is lost, nothing is added. *)
Lemma execAll_concat (fuel : nat) (s : jsstring) :
  length s <= fuel ->
  concat (execAll max fuel s) = stripLineTerminators s.
Proof.
  revert s. induction fuel as [|f IH]; intros s Hs.
  - destruct s; [reflexivity | simpl in Hs; lia].
  - destruct s as [|c rest]; [reflexivity|].
    cbn [execAll].
    destruct (dotRun max (c :: rest)) as [|x m] eqn:E.
    + apply dotRun_nil in E. rewrite IH by (simpl in Hs; lia).
      unfold stripLineTerminators. simpl. now rewrite E.
    + pose proof (dotRun_split (c :: rest)) as Sp.
      pose proof (dotRun_clean (c :: rest)) as Cl.
      rewrite E in Sp, Cl.
      cbn [concat]. rewrite IH.
      * rewrite <- Sp at 2. rewrite strip_app, (strip_clean Cl). reflexivity.
      * apply (f_equal (@length N)) in Sp. rewrite length_app in Sp.
        simpl in Sp, Hs. simpl. lia.
Qed.

(** More attempts than code units change nothing. *)
Lemma execAll_fuel (fuel fuel' : nat) (s : jsstring) :
  length s <= fuel -> length s <= fuel' ->
  execAll max fuel s = execAll max fuel' s.
Proof.
  revert fuel' s. induction fuel as [|f IH]; intros [|f'] s Hs Hs';
    destruct s as [|c rest]; try reflexivity; try (simpl in *; lia).
  cbn [execAll].
  destruct (dotRun max (c :: rest)) as [|x m] eqn:E.
  - apply IH; simpl in *; lia.
  - pose proof (dotRun_split (c :: rest)) as Sp. rewrite E in Sp.
    apply (f_equal (@length N)) in Sp. rewrite length_app in Sp.
    f_equal. apply IH; simpl in *; lia.
Qed.

End ChunkerFacts.

Lemma allChunks_eq (text : jsstring) :
  allChunks text = execAll CHUNK_SIZE (length text) text.
Proof.
  unfold allChunks, matchDot.
  now destruct (execAll CHUNK_SIZE (length text) text).
Qed.

Lemma chunker_firstn (text : jsstring) :
  chunker text = firstn MAX_CHUNKS (allChunks text).
Proof.
  unfold chunker, limitChunks.
  destruct (MAX_CHUNKS <? length (allChunks text)) eqn:E; [reflexivity|].
  apply Nat.ltb_ge in E. now rewrite firstn_all2.
Qed.

Lemma allChunks_lengths (text : jsstring) :
  Forall (fun c => 1 <= length c <= CHUNK_SIZE) (allChunks text).
Proof.
  rewrite allChunks_eq. apply execAll_lengths. unfold CHUNK_SIZE; lia.
Qed.

Lemma allChunks_concat (text : jsstring) :
  concat (allChunks text) = stripLineTerminators text.
Proof.
  rewrite allChunks_eq. apply execAll_concat; [unfold CHUNK_SIZE; lia | lia].
Qed.

Lemma Forall_firstn {A} (P : A -> Prop) (n : nat) (l : list A) :
  Forall P l -> Forall P (firstn n l).
Proof.
  intros H. revert n. induction H; intros [|n]; simpl; constructor; auto.
Qed.

Lemma concat_length_bound (k : nat) (l : list jsstring) :
  Forall (fun c => length c <= k) l -> length (concat l) <= length l * k.
Proof.
  induction 1 as [|c l Hc _ IH]; simpl; [lia|].
  rewrite length_app. lia.
Qed.

Lemma concat_firstn_prefix (n : nat) (l : list jsstring) :
  isPrefixOf (concat (firstn n l)) (concat l).
Proof.
  exists (concat (skipn n l)).
  now rewrite <- concat_app, firstn_skipn.
Qed.

(** What the chunker keeps of any text: an initial part of the text
    without its line terminators, all of it when no more than 50 matches
    were found. *)
Lemma chunker_concat (text : jsstring) :
  isPrefixOf (concat (chunker text)) (stripLineTerminators text) /\
  (length (allChunks text) <= MAX_CHUNKS ->
   concat (chunker text) = stripLineTerminators text) /\
  length (concat (chunker text)) <= MAX_CHUNKS * CHUNK_SIZE.
Proof.
  rewrite chunker_firstn, <- allChunks_concat. split; [|split].
  - apply concat_firstn_prefix.
  - intros H. now rewrite firstn_all2.
  - etransitivity.
    + apply concat_length_bound with (k := CHUNK_SIZE).
      apply Forall_firstn.
      eapply Forall_impl; [|apply allChunks_lengths]. simpl; lia.
    + rewrite length_firstn. apply Nat.mul_le_mono_r. lia.
Qed.

(** On a text without line terminators the chunks partition the text:
    concatenated they give it back when there are at most 50, and an
    initial part of it of at most 50000 code units otherwise. *)
Lemma chunker_partitions_single_line (text : jsstring) :
  noLineTerminator text ->
  (length (allChunks text) <= 50 -> concat (chunker text) = text) /\
  (50 < length (allChunks text) ->
   isPrefixOf (concat (chunker text)) text /\
   length (concat (chunker text)) <= 50 * 1000).
Proof.
  intros H. destruct (chunker_concat text) as (P & E & L).
  rewrite (strip_clean H) in *. auto.
Qed.

(** Two scenarios of section 8 of the specification, on single-line
    texts: 2500 code units give chunks of 1000, 1000 and 500; 60000 give
    exactly 50 chunks of 1000. *)
Example chunker_2500 :
  map (@length N) (chunker (repeat 0x61%N 2500)) = [1000; 1000; 500].
Proof. vm_compute. reflexivity. Qed.

Example chunker_60000 :
  map (@length N) (chunker (repeat 0x61%N (60 * 1000))) = repeat 1000 50.
Proof. vm_compute. reflexivity. Qed.

(** On a text of many short lines the cap of 50 is reached long before
    50000 code units: here 60 lines of one letter give 50 chunks of one
    code unit. *)
Example chunker_60_lines :
  chunker (concat (repeat (lit "x" ++ [0x0A%N]) 60)) = repeat (lit "x") 50.
Proof. vm_compute. reflexivity. Qed.

(** C6. For every text, every chunk the chunker produces is at most 1000
    code units long, at most 50 chunks are produced, and they are the
    first 50 matches in order (later ones are dropped). *)
Theorem chunker_bounds (text : jsstring) :
  Forall (fun c => length c <= 1000) (chunker text) /\
  length (chunker text) <= 50 /\
  chunker text = firstn 50 (allChunks text).
Proof.
  rewrite chunker_firstn. split; [|split].
  - apply Forall_firstn.
    eapply Forall_impl; [|apply allChunks_lengths].
    unfold CHUNK_SIZE; simpl; lia.
  - rewrite length_firstn. unfold MAX_CHUNKS. lia.
  - reflexivity.
Qed.

(** C1, at the text of two lines [a], [b]: the chunker returns the two
    chunks [a] and [b]; there are at most 50 of them, yet their
    concatenation is not the text, nor an initial part of it: the line
    feed is lost. *)
Theorem chunker_loses_line_terminators :
  let text := lit "a" ++ [0x0A%N] ++ lit "b" in
  chunker text = [lit "a"; lit "b"] /\
  length (allChunks text) <= 50 /\
  concat (chunker text) <> text /\
  ~ isPrefixOf (concat (chunker text)) text.
Proof.
  cbv zeta. split; [|split; [|split]].
  - vm_compute. reflexivity.
  - vm_compute. lia.
  - vm_compute. discriminate.
  - intros [r H]. vm_compute in H. discriminate H.
Qed.

(* ================================================================== *)
(** * Actions that leave the session cache alone *)
(* ================================================================== *)

Local Open Scope action_scope.

Lemma keepsCache_ret {A} (a : A) : keepsCache (ret a).
Proof. now intros w. Qed.

Lemma keepsCache_throw {A} (t : Thrown) : keepsCache (@throw A t).
Proof. now intros w. Qed.

Lemma keepsCache_emit (ev : Event) : keepsCache (emit ev).
Proof. now intros w. Qed.

Lemma keepsCache_perform {A} (ev : Event) (f : History -> A) :
  keepsCache (perform ev f).
Proof. now intros w. Qed.

Lemma keepsCache_await {A} (ev : Event) (f : History -> Completion A) :
  keepsCache (await ev f).
Proof. now intros w. Qed.

Lemma keepsCache_evaluate {A} (c : Completion A) : keepsCache (evaluate c).
Proof. now intros w. Qed.

Lemma keepsCache_bind {A B} (m : Action A) (k : A -> Action B) :
  keepsCache m -> (forall a, keepsCache (k a)) -> keepsCache (bind m k).
Proof.
  intros Hm Hk w. unfold bind. specialize (Hm w).
  destruct (m w) as [[a|t] w1]; simpl in *; [|exact Hm].
  now rewrite Hk.
Qed.

Lemma keepsCache_tryCatch {A} (m : Action A) (k : Thrown -> Action A) :
  keepsCache m -> (forall t, keepsCache (k t)) -> keepsCache (tryCatch m k).
Proof.
  intros Hm Hk w. unfold tryCatch. specialize (Hm w).
  destruct (m w) as [[a|t] w1]; simpl in *; [exact Hm|].
  now rewrite Hk.
Qed.

Create HintDb cache.
#[export] Hint Resolve keepsCache_ret keepsCache_throw keepsCache_emit
  keepsCache_perform keepsCache_await : cache.
#[export] Hint Resolve keepsCache_evaluate : cache.

(** Break an action into its steps, each of which keeps the cache. *)
Ltac keeps_cache :=
  repeat first
    [ solve [auto with cache]
    | apply keepsCache_bind; [|intros ?]
    | apply keepsCache_tryCatch; [|intros ?]
    | match goal with
      | |- keepsCache (if ?b then _ else _) => destruct b
      | |- keepsCache (match ?x with _ => _ end) => destruct x
      end ].

Lemma fallbackPromise_keepsCache (h : Host) (buffer : Buffer) :
  keepsCache (fallbackPromise h buffer).
Proof. unfold fallbackPromise. keeps_cache. Qed.

#[export] Hint Resolve fallbackPromise_keepsCache : cache.

(** The promise the inner [try] returns is the fallback promise, and
    nothing else. *)
Lemma pdfCatch_keepsCache (h : Host) (buffer : Buffer) (error : Thrown) :
  keepsCache (pdfCatch h buffer error).
Proof.
  unfold pdfCatch.
  apply keepsCache_bind; [apply keepsCache_evaluate | intros errorMessage].
  destruct (_ || _); [|keeps_cache].
  pose proof (fallbackPromise_keepsCache h buffer) as F.
  remember (fallbackPromise h buffer) as promise eqn:P. clear P.
  intros w. unfold bind, tryCatch, await, ret, throw, evaluate. cbn.
  destruct (PDFParser_new h (trace w)) as [u|e]; cbn.
  - now rewrite F.
  - now destruct (messageOf h e).
Qed.

#[export] Hint Resolve pdfCatch_keepsCache : cache.

Lemma extractText_keepsCache (h : Host) (file : File) :
  keepsCache (extractText h file).
Proof. unfold extractText. keeps_cache. Qed.

Lemma extractTextOf_keepsCache (h : Host) (file : FormDataEntryValue) :
  keepsCache (extractTextOf h file).
Proof.
  destruct file; simpl; [apply keepsCache_throw | apply extractText_keepsCache].
Qed.

(** The index build writes the cache as its last step, and only when
    both the model handle and the vector store were obtained. *)
Lemma indexBody_cases (h : Host) (chunks : list jsstring) (w : World) :
  (exists error w',
      indexBody h chunks w = (Abrupt error, w') /\
      sessionCache w' = sessionCache w) \/
  (exists handle store w',
      indexBody h chunks w = (Normal MSG_SUCCESS, w') /\
      MemoryVectorStore_fromTexts h
        (trace w ++ [EvNewChatGroq (Langchain.chatGroqFields (GROQ_API_KEY h))])
        chunks (metadatasOf chunks) mkFakeEmbeddings = Normal store /\
      sessionCache w' =
        mkSessionCache (Some store) (Some handle) (Some mkFakeEmbeddings)
          (Some handle)).
Proof.
  unfold indexBody, Langchain.createGroqAgent, bind, await, writeCache, ret.
  cbn.
  destruct (ChatGroq_new h (trace w) _) as [handle|error]; cbn.
  - destruct (MemoryVectorStore_fromTexts h _ chunks _ _) as [store|error];
      cbn.
    + right. exists handle, store. eexists.
      split; [reflexivity | split; reflexivity].
    + left. exists error. eexists. split; reflexivity.
  - left. exists error. eexists. split; reflexivity.
Qed.

(** [handlePdfUpload], one case per way through it. *)
Lemma handlePdfUpload_cases (h : Host) (formData : FormData) (w : World) :
  handlePdfUpload h formData w =
  match providedFile formData with
  | None => (Normal MSG_NO_FILE, w)
  | Some file =>
      match extractTextOf h file w with
      | (Abrupt error, w1) => (caught h PREFIX_EXTRACT_FAILED error, w1)
      | (Normal text, w1) =>
          match indexBody h (chunker text) w1 with
          | (Normal s, w2) => (Normal s, w2)
          | (Abrupt error, w2) => (caught h PREFIX_PROCESS_FAILED error, w2)
          end
      end
  end.
Proof.
  unfold handlePdfUpload.
  destruct (providedFile formData) as [file|]; [|reflexivity].
  unfold bind, tryCatch, buildIndex, ret, evaluate, caught.
  destruct (extractTextOf h file w) as [[text|error] w1];
    [|now destruct (messageOf h error)].
  unfold tryCatch, bind.
  destruct (indexBody h (chunker text) w1) as [[s|error] w2];
    [reflexivity | now destruct (messageOf h error)].
Qed.

Lemma providedFile_file (formData : FormData) (file : File) :
  formData_get formData (lit "file") = Some (EntryFile file) ->
  providedFile formData = Some (EntryFile file).
Proof. unfold providedFile. now intros ->. Qed.

(* ================================================================== *)
(** * The upload boundary *)
(* ================================================================== *)

(** No failure string is the success string. *)
Lemma failure_is_not_success (msg : jsstring) :
  MSG_NO_FILE <> MSG_SUCCESS /\
  PREFIX_EXTRACT_FAILED ++ msg <> MSG_SUCCESS /\
  PREFIX_PROCESS_FAILED ++ msg <> MSG_SUCCESS.
Proof. repeat split; vm_compute; discriminate. Qed.

(** C4, as amended.  For every form and every world in which each value
    thrown by the extraction or by the index build is one whose message
    the catch handler can compute (an [Error], or a value that [String]
    converts), [handlePdfUpload] completes normally with a string: the
    fixed string for a missing file; the extraction error's message
    after a fixed prefix when [extractText] throws; the index-build
    error's message after a fixed prefix when the agent or the vector
    store cannot be built; the fixed success string otherwise. *)
Theorem handlePdfUpload_never_throws
    (h : Host) (formData : FormData) (w : World) :
  (forall file error w1,
      providedFile formData = Some file ->
      extractTextOf h file w = (Abrupt error, w1) ->
      printable h error) ->
  (forall file extracted w1 error w2,
      providedFile formData = Some file ->
      extractTextOf h file w = (Normal extracted, w1) ->
      indexBody h (chunker extracted) w1 = (Abrupt error, w2) ->
      printable h error) ->
  exists s w',
    handlePdfUpload h formData w = (Normal s, w') /\
    ( (providedFile formData = None /\
       s = lit "No file provided" /\ w' = w)
      \/
      (exists file error message,
          providedFile formData = Some file /\
          extractTextOf h file w = (Abrupt error, w') /\
          messageOf h error = Normal message /\
          s = lit "Failed to extract text from document: " ++ message)
      \/
      (exists file extracted w1 error message,
          providedFile formData = Some file /\
          extractTextOf h file w = (Normal extracted, w1) /\
          indexBody h (chunker extracted) w1 = (Abrupt error, w') /\
          messageOf h error = Normal message /\
          s = lit "Failed to process document: " ++ message)
      \/
      (exists file extracted w1,
          providedFile formData = Some file /\
          extractTextOf h file w = (Normal extracted, w1) /\
          indexBody h (chunker extracted) w1 = (Normal s, w') /\
          s = lit "Document uploaded and processed successfully!") ).
Proof.
  intros PrintableX PrintableI. rewrite handlePdfUpload_cases.
  destruct (providedFile formData) as [file|].
  2:{ exists MSG_NO_FILE, w. split; [reflexivity|]. left. auto. }
  destruct (extractTextOf h file w) as [[extracted|error] w1] eqn:X.
  - destruct (indexBody_cases h (chunker extracted) w1)
      as [(error & w2 & I & _) | (handle & store & w2 & I & _)];
      rewrite I.
    + destruct (PrintableI file extracted w1 error w2 eq_refl X I)
        as (message & M).
      unfold caught. rewrite M. do 2 eexists. split; [reflexivity|].
      right; right; left. exists file, extracted, w1, error, message. auto.
    + do 2 eexists. split; [reflexivity|].
      right; right; right. exists file, extracted, w1. auto.
  - destruct (PrintableX file error w1 eq_refl X) as (message & M).
    unfold caught. rewrite M. do 2 eexists. split; [reflexivity|].
    right; left. exists file, error, message. auto.
Qed.

Lemma handlePdfUpload_never_throws_witness :
  let h := Demo.host (Demo.pdfError "Invalid PDF structure") TimerFirst VNull in
  let formData := Demo.formOf (Demo.fileOf "application/pdf" "%PDF-1.4") in
  exists s w', handlePdfUpload h formData initialWorld = (Normal s, w').
Proof.
  intros h formData.
  destruct (@handlePdfUpload_never_throws h formData initialWorld)
    as (s & w' & E & _).
  - intros file error w1 [= <-] X. vm_compute in X.
    injection X as <- _. now eexists.
  - intros file extracted w1 error w2 [= <-] X. vm_compute in X.
    discriminate X.
  - now exists s, w'.
Defined.

(** C4 as stated fails: the catch handlers convert what was thrown with
    [String(error)], and that conversion throws on a plain object that
    has a property of its own named [toString].  Here the executor of
    the fallback parser throws such an object; it reaches the handler of
    [handlePdfUpload], and the [TypeError] of the conversion leaves
    [handlePdfUpload]. *)
Lemma unprintable_error_escapes :
  ~ (forall (h : Host) (formData : FormData) (w : World),
        exists s w', handlePdfUpload h formData w = (Normal s, w')).
Proof.
  intros Claim.
  destruct (Claim
              (Demo.host (Demo.pdfError "bad XRef entry")
                 (ExecutorThrows
                    (ThrownValue (VObject [(lit "toString", VNull)])))
                 VNull)
              (Demo.formOf (Demo.fileOf "application/pdf" "%PDF-1.4"))
              initialWorld) as (s & w' & E).
  vm_compute in E. discriminate E.
Qed.

(** The two conditions are needed: whatever [handlePdfUpload] throws is
    the exception of the conversion of a value that the extraction or
    the index build threw. *)
Lemma handlePdfUpload_throws_unprintable
    (h : Host) (formData : FormData) (w : World) (t : Thrown) (w' : World) :
  handlePdfUpload h formData w = (Abrupt t, w') ->
  exists file error,
    providedFile formData = Some file /\
    messageOf h error = Abrupt t /\
    (extractTextOf h file w = (Abrupt error, w') \/
     exists extracted w1,
       extractTextOf h file w = (Normal extracted, w1) /\
       indexBody h (chunker extracted) w1 = (Abrupt error, w')).
Proof.
  rewrite handlePdfUpload_cases.
  destruct (providedFile formData) as [file|]; [|discriminate].
  unfold caught.
  destruct (extractTextOf h file w) as [[extracted|error] w1] eqn:X.
  - destruct (indexBody h (chunker extracted) w1) as [[s|error] w2] eqn:B;
      [discriminate|].
    destruct (messageOf h error) as [message|t'] eqn:M; [discriminate|].
    intros [= <- <-]. exists file, error. split; [reflexivity|].
    split; [exact M|]. right. now exists extracted, w1.
  - destruct (messageOf h error) as [message|t'] eqn:M; [discriminate|].
    intros [= <- <-]. exists file, error. split; [reflexivity|].
    split; [exact M|]. now left.
Qed.

(** C10. Whenever [handlePdfUpload] returns anything but the success
    string, the session cache is the one it started with, so that
    [chatWithBot] goes on reading the store and the model handle of the
    last successful upload; and when the cache did change, the success
    string was returned and the new cache holds a vector store that
    [MemoryVectorStore.fromTexts] returned. *)
Theorem failed_upload_keeps_session
    (h : Host) (formData : FormData) (w : World) (s : jsstring) (w' : World) :
  handlePdfUpload h formData w = (Normal s, w') ->
  (s <> lit "Document uploaded and processed successfully!" ->
   sessionCache w' = sessionCache w) /\
  (sessionCache w' <> sessionCache w ->
   s = lit "Document uploaded and processed successfully!" /\
   exists past chunks store,
     MemoryVectorStore_fromTexts h past chunks (metadatasOf chunks)
       mkFakeEmbeddings = Normal store /\
     vectorStore (sessionCache w') = Some store).
Proof.
  rewrite handlePdfUpload_cases. intros H.
  assert (Done : sessionCache w' = sessionCache w \/
    (s = MSG_SUCCESS /\
     exists past chunks store,
       MemoryVectorStore_fromTexts h past chunks (metadatasOf chunks)
         mkFakeEmbeddings = Normal store /\
       vectorStore (sessionCache w') = Some store)).
  { destruct (providedFile formData) as [file|];
      [|injection H as <- <-; now left].
    pose proof (extractTextOf_keepsCache h file w) as K.
    destruct (extractTextOf h file w) as [[text|error] w1]; simpl in K.
    - destruct (indexBody_cases h (chunker text) w1)
        as [(error & w2 & I & C) | (handle & store & w2 & I & F & C)];
        rewrite I in H; injection H as H <-.
      + left. congruence.
      + right. subst s. split; [reflexivity|].
        eexists _, _, store. split; [exact F|]. now rewrite C.
    - injection H as _ <-. left. exact K. }
  split.
  - intros N. destruct Done as [E|[E _]]; [exact E | contradiction].
  - intros N. destruct Done as [E|E]; [contradiction | exact E].
Qed.

Lemma failed_upload_keeps_session_witness :
  let h := Demo.host (Demo.pdfError "Invalid PDF structure") TimerFirst VNull in
  let formData := Demo.formOf (Demo.fileOf "application/pdf" "%PDF-1.4") in
  sessionCache (snd (handlePdfUpload h formData Demo.loadedWorld)) =
  sessionCache Demo.loadedWorld.
Proof.
  intros h formData.
  refine (proj1 (@failed_upload_keeps_session h formData Demo.loadedWorld
                   (PREFIX_EXTRACT_FAILED ++
                    lit "Failed to parse PDF. The file may be corrupted or in an unsupported format: Invalid PDF structure")
                   (snd (handlePdfUpload h formData Demo.loadedWorld)) _) _).
  - vm_compute. reflexivity.
  - vm_compute. discriminate.
Defined.

(* ================================================================== *)
(** * Answering before any upload *)
(* ================================================================== *)

(** C5. For every question, when the session cache holds no vector store
    or no model handle, [chatWithBot] returns the guidance string and
    leaves the world as it was: the trace gains no call, neither to the
    retriever nor to the model. *)
Theorem chatWithBot_before_upload (h : Host) (message : jsstring) (w : World) :
  vectorStore (sessionCache w) = None \/ llm (sessionCache w) = None ->
  chatWithBot h message w = (Normal (lit "Please upload a document first."), w).
Proof.
  intros H. unfold chatWithBot, bind, readCache. cbn.
  destruct (vectorStore (sessionCache w)) as [store|];
    destruct (llm (sessionCache w)) as [handle|];
    try reflexivity.
  destruct H; discriminate.
Qed.

Lemma chatWithBot_before_upload_witness :
  chatWithBot (Demo.host (Demo.pdfOk "unused") TimerFirst Demo.mixedResponse)
    (lit "What is the notice period?") initialWorld =
  (Normal (lit "Please upload a document first."), initialWorld).
Proof.
  apply chatWithBot_before_upload. left. reflexivity.
Defined.

(* ================================================================== *)
(** * [extractText]: the declared type *)
(* ================================================================== *)

(** C7. For every file whose declared type is none of the three
    supported ones, [extractText] throws the unsupported-type error and
    leaves the world as it was: the trace gains no call to any parser. *)
Theorem extractText_unsupported (h : Host) (file : File) (w : World) :
  type file <> lit "application/pdf" ->
  type file <> lit "text/plain" ->
  type file <>
    lit "application/vnd.openxmlformats-officedocument.wordprocessingml.document" ->
  extractText h file w = (Abrupt (ErrorObject (lit "Unsupported file type")), w).
Proof.
  intros Hpdf Htxt Hdocx. unfold extractText.
  apply eqb_neq in Hpdf, Htxt, Hdocx.
  unfold MIME_PDF, MIME_TXT, MIME_DOCX. now rewrite Hpdf, Htxt, Hdocx.
Qed.

Lemma extractText_unsupported_witness :
  extractText (Demo.host (Demo.pdfOk "unused") TimerFirst VNull)
    (Demo.fileOf "image/png" "not a document") initialWorld =
  (Abrupt (ErrorObject (lit "Unsupported file type")), initialWorld).
Proof.
  apply extractText_unsupported; vm_compute; discriminate.
Defined.

(** A plain-text file is decoded and returned as it is: this branch has
    no check of the text and no way to fail. *)
Lemma extractText_plain (h : Host) (file : File) (w : World) :
  type file = MIME_TXT ->
  extractText h file w = (Normal (Buffer_toString_utf8 h (bytes file)), w).
Proof.
  intros E. unfold extractText. rewrite E. reflexivity.
Qed.

(** A PDF from which the primary parser extracts only blank text is
    refused, with a message that carries the empty-extraction message. *)
Lemma extractText_pdf_blank
    (h : Host) (file : File) (w : World) (pdfData : PdfData) :
  type file = MIME_PDF ->
  pdf h (trace w) (bytes file) = Normal pdfData ->
  isBlank (text pdfData) = true ->
  extractText h file w =
  (Abrupt
     (ErrorObject
        (lit "Failed to parse PDF. The file may be corrupted or in an unsupported format: "
         ++ MSG_PDF_EMPTY)),
   mkWorld (sessionCache w) (trace w ++ [EvPdfParse (bytes file)])).
Proof.
  intros E P B. unfold extractText. rewrite E.
  unfold tryCatch, bind, await. cbn. rewrite P, B. reflexivity.
Qed.

(** So is a DOCX from which mammoth extracts only blank text. *)
Lemma extractText_docx_blank
    (h : Host) (file : File) (w : World) (result : MammothResult) :
  type file = MIME_DOCX ->
  mammoth_extractRawText h (trace w) (bytes file) = Normal result ->
  isBlank (value result) = true ->
  extractText h file w =
  (Abrupt (ErrorObject (lit "Failed to parse DOCX file: " ++ MSG_DOCX_EMPTY)),
   mkWorld (sessionCache w) (trace w ++ [EvMammoth (bytes file)])).
Proof.
  intros E P B. unfold extractText. rewrite E.
  unfold tryCatch, bind, await. cbn. rewrite P, B. reflexivity.
Qed.

(** C2, at a plain-text file of three spaces: the extracted text is
    blank, yet [extractText] returns it, no parser being involved, and
    the upload goes on to report success. *)
Theorem extractText_plain_blank_succeeds :
  let h := Demo.host (Demo.pdfOk "unused") TimerFirst VNull in
  let file := Demo.fileOf "text/plain" "   " in
  isBlank (Some (lit "   ")) = true /\
  extractText h file initialWorld = (Normal (lit "   "), initialWorld) /\
  fst (handlePdfUpload h (Demo.formOf file) initialWorld) =
  Normal (lit "Document uploaded and processed successfully!").
Proof.
  cbv zeta. split; [|split]; vm_compute; reflexivity.
Qed.

(** The same at an empty plain-text file. *)
Example extractText_plain_empty_succeeds :
  let h := Demo.host (Demo.pdfOk "unused") TimerFirst VNull in
  let file := Demo.fileOf "text/plain" EmptyString in
  extractText h file initialWorld = (Normal [], initialWorld) /\
  fst (handlePdfUpload h (Demo.formOf file) initialWorld) =
  Normal (lit "Document uploaded and processed successfully!").
Proof.
  cbv zeta. split; vm_compute; reflexivity.
Qed.

(* ================================================================== *)
(** * [extractText]: a PDF the primary parser rejects *)
(* ================================================================== *)

Section PdfFailure.

Variables (h : Host) (file : File) (w : World) (error : Thrown).
Variable errorMessage : jsstring.

Hypothesis declared_pdf : type file = MIME_PDF.
Hypothesis primary_fails : pdf h (trace w) (bytes file) = Abrupt error.
Hypothesis message_computed : messageOf h error = Normal errorMessage.

(** The [catch] clause runs on the primary parser's error, after the one
    call to that parser. *)
Lemma extractText_pdf_failure :
  extractText h file w =
  pdfCatch h (bytes file) error
    (mkWorld (sessionCache w) (trace w ++ [EvPdfParse (bytes file)])).
Proof.
  unfold extractText. rewrite declared_pdf.
  unfold tryCatch, bind, await. cbn. now rewrite primary_fails.
Qed.

(** A message that names the cross-reference table: the fallback parser
    is created, and when that succeeds the outcome is the promise's;
    when it cannot be created the inner handler reports both messages,
    unless the second one cannot be computed. *)
Lemma extractText_xref :
  includes errorMessage (lit "XRef")
  || includes errorMessage (lit "xref") = true ->
  let past := trace w ++ [EvPdfParse (bytes file)] in
  extractText h file w =
  match PDFParser_new h past with
  | Normal _ =>
      fallbackPromise h (bytes file)
        (mkWorld (sessionCache w) (past ++ [EvPdf2JsonNew]))
  | Abrupt fallbackError =>
      (match messageOf h fallbackError with
       | Normal fallbackErrorMsg =>
           Abrupt (ErrorObject
                     (fallbackFailureMessage errorMessage fallbackErrorMsg))
       | Abrupt t => Abrupt t
       end,
       mkWorld (sessionCache w) (past ++ [EvPdf2JsonNew]))
  end.
Proof.
  intros X past. subst past. rewrite extractText_pdf_failure. unfold pdfCatch.
  unfold bind at 1. unfold evaluate at 1. rewrite message_computed, X.
  generalize (fallbackPromise h (bytes file)); intros promise.
  unfold bind, tryCatch, await, ret, throw, evaluate. cbn.
  destruct (PDFParser_new h (trace w ++ [EvPdfParse (bytes file)]))
    as [u|fallbackError]; [reflexivity|].
  now destruct (messageOf h fallbackError).
Qed.

(** Any other message: the two remaining branches of the handler. *)
Lemma extractText_no_xref :
  includes errorMessage (lit "XRef")
  || includes errorMessage (lit "xref") = false ->
  extractText h file w =
  (Abrupt
     (ErrorObject
        (if includes errorMessage (lit "password")
            || includes errorMessage (lit "encrypted")
         then MSG_ENCRYPTED
         else lit "Failed to parse PDF. The file may be corrupted or in an unsupported format: "
              ++ errorMessage)),
   mkWorld (sessionCache w) (trace w ++ [EvPdfParse (bytes file)])).
Proof.
  intros X. rewrite extractText_pdf_failure. unfold pdfCatch.
  unfold bind, evaluate. rewrite message_computed, X.
  now destruct (includes errorMessage (lit "password") || _).
Qed.

End PdfFailure.

(** The promise arms the timer with 30000 ms and then starts the parser,
    whatever happens next. *)
Lemma fallbackPromise_trace (h : Host) (buffer : Buffer) (w : World) :
  exists r rest,
    fallbackPromise h buffer w =
    (r, mkWorld (sessionCache w)
          (trace w ++ EvSetTimeout 30000 :: EvParseBuffer buffer :: rest)).
Proof.
  unfold fallbackPromise, bind, emit, perform, throw, ret. cbn -[isBlank].
  destruct (parseBuffer h _ buffer) as [t| |perr|data]; cbn -[isBlank].
  - exists (Abrupt t), []. now rewrite <- app_assoc.
  - eexists _, []. now rewrite <- app_assoc.
  - eexists _, [EvClearTimeout]. now rewrite <- !app_assoc.
  - destruct (isBlank _); eexists _, [EvClearTimeout];
      now rewrite <- !app_assoc.
Qed.

(** When the timer fires before any parser event, the promise rejects
    with the timeout error. *)
Lemma fallbackPromise_timeout (h : Host) (buffer : Buffer) (w : World) :
  parseBuffer h (trace w ++ [EvSetTimeout 30000]) buffer = TimerFirst ->
  fallbackPromise h buffer w =
  (Abrupt (ErrorObject MSG_TIMEOUT),
   mkWorld (sessionCache w)
     (trace w ++ [EvSetTimeout 30000; EvParseBuffer buffer])).
Proof.
  intros E. unfold fallbackPromise, bind, emit, perform, throw. cbn.
  unfold FALLBACK_TIMEOUT_MS. rewrite E. now rewrite <- app_assoc.
Qed.

(** C8. For every PDF upload on which the primary parser fails with a
    message containing [XRef] or [xref]: the fallback parser is
    attempted; once it is created, the timer is armed with 30000 ms
    before the parser is started; and if the timer fires before any
    parser event, [handlePdfUpload] returns the failure string made of
    the extraction prefix and the timeout message, which contains
    [timeout]. *)
Theorem xref_fallback_under_timeout
    (h : Host) (formData : FormData) (file : File) (w : World)
    (error : Thrown) (errorMessage : jsstring) :
  formData_get formData (lit "file") = Some (EntryFile file) ->
  type file = lit "application/pdf" ->
  pdf h (trace w) (bytes file) = Abrupt error ->
  messageOf h error = Normal errorMessage ->
  includes errorMessage (lit "XRef")
  || includes errorMessage (lit "xref") = true ->
  let buffer := bytes file in
  let past := trace w ++ [EvPdfParse buffer] in
  (exists r w' rest,
      extractText h file w = (r, w') /\
      trace w' = past ++ EvPdf2JsonNew :: rest /\
      (forall u, PDFParser_new h past = Normal u ->
         exists rest',
           rest = EvSetTimeout 30000 :: EvParseBuffer buffer :: rest')) /\
  (forall u,
      PDFParser_new h past = Normal u ->
      parseBuffer h (past ++ [EvPdf2JsonNew; EvSetTimeout 30000]) buffer
      = TimerFirst ->
      exists s w',
        handlePdfUpload h formData w = (Normal s, w') /\
        s = lit "Failed to extract text from document: "
            ++ lit "PDF parsing timeout - the file may be too large or corrupted" /\
        includes s (lit "timeout") = true /\
        sessionCache w' = sessionCache w).
Proof.
  intros G Ty P M X buffer past.
  pose proof (@extractText_xref h file w error errorMessage Ty P M X) as E.
  cbv zeta in E.
  fold buffer in E. fold past in E.
  split.
  - destruct (PDFParser_new h past) as [u|fe] eqn:N.
    + destruct (fallbackPromise_trace h buffer
                  (mkWorld (sessionCache w) (past ++ [EvPdf2JsonNew])))
        as (r & rest & F).
      rewrite F in E. cbn in E.
      exists r. eexists. exists (EvSetTimeout 30000 :: EvParseBuffer buffer :: rest).
      split; [exact E|]. cbn. split.
      * now rewrite <- app_assoc.
      * intros _ _. now exists rest.
    + eexists _, _, []. split; [exact E|]. cbn. split; [reflexivity|].
      intros u [=].
  - intros u N T. rewrite N in E.
    rewrite fallbackPromise_timeout in E.
    2:{ cbn. rewrite <- app_assoc. exact T. }
    rewrite handlePdfUpload_cases, (providedFile_file _ G).
    cbn [extractTextOf]. rewrite E.
    eexists _, _. split; [reflexivity|]. split; [reflexivity|].
    split; [vm_compute; reflexivity | reflexivity].
Qed.

Lemma xref_fallback_under_timeout_witness :
  let h := Demo.host (Demo.pdfError "bad XRef entry") TimerFirst VNull in
  let file := Demo.fileOf "application/pdf" "%PDF-1.4" in
  exists w',
    handlePdfUpload h (Demo.formOf file) Demo.loadedWorld =
    (Normal (lit "Failed to extract text from document: PDF parsing timeout - the file may be too large or corrupted"),
     w') /\
    sessionCache w' = sessionCache Demo.loadedWorld.
Proof.
  intros h file.
  destruct (@xref_fallback_under_timeout h (Demo.formOf file) file
              Demo.loadedWorld (ErrorObject (lit "bad XRef entry"))
              (lit "bad XRef entry")
              eq_refl eq_refl eq_refl eq_refl eq_refl) as [_ T].
  destruct (T tt eq_refl eq_refl) as (s & w' & E & S & _ & C).
  exists w'. split; [|exact C]. rewrite E, S. reflexivity.
Defined.

(** C9, as amended.  For every PDF upload on which the primary parser
    fails with a message that contains [password] or [encrypted] and
    contains neither [XRef] nor [xref], [extractText] throws the
    encrypted-source error, and the trace holds the one call to the
    primary parser: no fallback parser is attempted. *)
Theorem extractText_encrypted
    (h : Host) (file : File) (w : World) (error : Thrown)
    (errorMessage : jsstring) :
  type file = lit "application/pdf" ->
  pdf h (trace w) (bytes file) = Abrupt error ->
  messageOf h error = Normal errorMessage ->
  includes errorMessage (lit "XRef")
  || includes errorMessage (lit "xref") = false ->
  includes errorMessage (lit "password")
  || includes errorMessage (lit "encrypted") = true ->
  extractText h file w =
  (Abrupt
     (ErrorObject
        (lit "This PDF appears to be password-protected or encrypted. Please remove the password and try again.")),
   mkWorld (sessionCache w) (trace w ++ [EvPdfParse (bytes file)])).
Proof.
  intros Ty P M X Enc.
  rewrite (@extractText_no_xref h file w error errorMessage Ty P M X).
  now rewrite Enc.
Qed.

Lemma extractText_encrypted_witness :
  extractText (Demo.host (Demo.pdfError "No password given") TimerFirst VNull)
    (Demo.fileOf "application/pdf" "%PDF-1.4") initialWorld =
  (Abrupt (ErrorObject MSG_ENCRYPTED),
   mkWorld emptyCache [EvPdfParse (Demo.asciiBytes "%PDF-1.4")]).
Proof.
  apply (@extractText_encrypted
           (Demo.host (Demo.pdfError "No password given") TimerFirst VNull)
           (Demo.fileOf "application/pdf" "%PDF-1.4") initialWorld
           (ErrorObject (lit "No password given"))
           (lit "No password given"));
    vm_compute; reflexivity.
Defined.

(** C9 as stated fails: the test for [XRef] comes first.  On the message
    [Invalid XRef stream: file is encrypted] the fallback parser is
    created and run, and here it recovers the text, so that
    [extractText] returns normally. *)
Lemma encrypted_xref_takes_fallback :
  ~ (forall (h : Host) (file : File) (w : World) (error : Thrown)
            (errorMessage : jsstring),
        type file = lit "application/pdf" ->
        pdf h (trace w) (bytes file) = Abrupt error ->
        messageOf h error = Normal errorMessage ->
        includes errorMessage (lit "password")
        || includes errorMessage (lit "encrypted") = true ->
        exists w',
          extractText h file w = (Abrupt (ErrorObject MSG_ENCRYPTED), w') /\
          ~ In EvPdf2JsonNew (trace w')).
Proof.
  intros Claim.
  destruct (Claim
              (Demo.host (Demo.pdfError "Invalid XRef stream: file is encrypted")
                 (DataReadyFirst (Demo.onePage "recovered text")) VNull)
              (Demo.fileOf "application/pdf" "%PDF-1.4") initialWorld
              (ErrorObject (lit "Invalid XRef stream: file is encrypted"))
              (lit "Invalid XRef stream: file is encrypted")
              eq_refl eq_refl eq_refl eq_refl) as (w' & E & _).
  vm_compute in E. discriminate E.
Qed.

(* ================================================================== *)
(** * [chatWithBot]: the answer taken from the response *)
(* ================================================================== *)

Lemma join_empty (parts : list jsstring) : join [] parts = concat parts.
Proof.
  induction parts as [|p [|q rest] IH]; [reflexivity| |].
  - simpl. now rewrite app_nil_r.
  - change (join [] (p :: q :: rest)) with (p ++ [] ++ join [] (q :: rest)).
    now rewrite IH.
Qed.

(** The shapes of a response that [answerOf] tells apart. *)
Lemma classify_response (response : JSValue) :
  (response = VNull \/ response = VUndefined) \/
  ((exists s, response = VString s) \/
   (exists content,
       (forall s, response <> VString s) /\
       memberOf response (lit "content") = Some content)).
Proof.
  destruct response as [| |b|x|s|elems|props];
    try (left; auto; fail);
    right; [ right | right | left | right | right ];
    try (now exists s);
    eexists; (split; [intros ? [=] | reflexivity]).
Qed.

Lemma partText_contribution (h : Host) (part : JSValue) (s : jsstring) :
  partText h part = Normal s -> PartContribution h part s.
Proof.
  destruct part as [| |b|x|t|elems|props]; simpl; intros E;
    try solve [injection E as <-; apply OtherPart; intros ? [=]].
  - injection E as <-. apply StringPart.
  - destruct (getProp props (lit "text")) as [v|] eqn:G.
    + eapply TextPart; eassumption.
    + injection E as <-.
      apply OtherPart; [intros ? [=] | intros ? [= <-]; exact G].
Qed.

Lemma mapParts_contributions
    (h : Host) (parts : list JSValue) (pieces : list jsstring) :
  mapParts h parts = Normal pieces ->
  Forall2 (PartContribution h) parts pieces.
Proof.
  revert pieces. induction parts as [|part rest IH]; simpl; intros pieces E.
  - injection E as <-. constructor.
  - destruct (partText h part) as [s|t] eqn:P; [|discriminate E].
    destruct (mapParts h rest) as [ss|t] eqn:R; [|discriminate E].
    injection E as <-.
    constructor; [now apply partText_contribution | now apply IH].
Qed.

(** When the [text] of every object part converts, the loop over the
    parts runs to its end. *)
Lemma mapParts_converts (h : Host) (parts : list JSValue) :
  Forall (fun part =>
            forall props v,
              part = VObject props ->
              getProp props (lit "text") = Some v ->
              exists s, ToString h v = Normal s) parts ->
  exists pieces, mapParts h parts = Normal pieces.
Proof.
  induction 1 as [|part rest C _ (pieces & IH)]; simpl.
  - now eexists.
  - rewrite IH.
    assert (exists s, partText h part = Normal s) as (s & ->).
    { destruct part as [| |b|x|t|elems|props]; simpl; try (now eexists).
      destruct (getProp props (lit "text")) as [v|] eqn:G;
        [now apply (C props v) | now eexists]. }
    now eexists.
Qed.

(** The answer, once the response has a readable [content]: a
    conversion that throws ends [answerOf] with its exception. *)
Lemma answerOf_content
    (h : Host) (response content : JSValue) (w : World) :
  (forall s, response <> VString s) ->
  memberOf response (lit "content") = Some content ->
  answerOf h response w =
  (match content with
   | VString s => Normal s
   | VArray parts =>
       match mapParts h parts with
       | Normal texts => Normal (concat texts)
       | Abrupt t => Abrupt t
       end
   | _ =>
       match ToString h content with
       | Normal text => Normal (orElse text (JSON_stringify h response))
       | Abrupt t => Abrupt t
       end
   end, w).
Proof.
  intros NotString M.
  assert (Body :
    answerOf h response w =
    (content <- getContent response ;;
     match content with
     | VString s => ret s
     | VArray parts =>
         texts <- evaluate (mapParts h parts) ;;
         ret (join [] texts)
     | _ =>
         text <- evaluate (ToString h content) ;;
         ret (orElse text (JSON_stringify h response))
     end)%action w).
  { destruct response; try reflexivity. now destruct (NotString s). }
  rewrite Body. unfold getContent. rewrite M. unfold bind at 1. unfold ret at 1.
  unfold bind, evaluate, ret.
  destruct content as [| |b|x|s|parts|props]; try reflexivity.
  - now destruct b.
  - destruct (mapParts h parts); [now rewrite join_empty | reflexivity].
  - now destruct (ToString h (VObject props)).
Qed.

(** C3, as amended.  For every response of the model other than [null]
    and [undefined] on which the conversions that the answer needs
    return (the string of the [text] property of each object part of an
    array [content]; the string form of a [content] that is neither a
    string nor an array), once the retriever and the model have
    answered, [chatWithBot] completes normally with a string: a string
    response as it is; a string [content] as it is; for an array
    [content], the in-order concatenation of what its parts contribute
    (a string part itself, an object part with a [text] property the
    string of that property, any other part nothing); for any other
    [content], its string form, or the JSON text of the whole response
    when that form is empty. *)
Theorem chatWithBot_normalizes
    (h : Host) (message : jsstring) (w : World)
    (store : MemoryVectorStore) (handle : ChatGroq)
    (docs : list Document) (response : JSValue) :
  vectorStore (sessionCache w) = Some store ->
  llm (sessionCache w) = Some handle ->
  getRelevantDocuments h (trace w) store 3 message = Normal docs ->
  invoke h (trace w ++ [EvGetRelevantDocuments store 3 message]) handle
    (promptOf docs message) = Normal response ->
  response <> VNull ->
  response <> VUndefined ->
  answerConverts h response ->
  exists answer w',
    chatWithBot h message w = (Normal answer, w') /\
    match response with
    | VString s => answer = s
    | _ =>
        exists content,
          memberOf response (lit "content") = Some content /\
          match content with
          | VString s => answer = s
          | VArray parts =>
              exists pieces,
                Forall2 (PartContribution h) parts pieces /\
                answer = concat pieces
          | _ =>
              exists s,
                ToString h content = Normal s /\
                ((s <> [] /\ answer = s) \/
                 (s = [] /\ answer = JSON_stringify h response))
          end
    end.
Proof.
  intros S L D I NotNull NotUndefined Converts.
  unfold chatWithBot, bind, readCache, await. cbn -[answerOf promptOf].
  rewrite S, L. unfold RETRIEVE_K. rewrite D, I.
  set (w1 := mkWorld _ _).
  destruct (classify_response response)
    as [[-> | ->] | [(s & ->) | (content & NotString & M)]];
    [congruence | congruence | eexists _, _; split; reflexivity |].
  rewrite (@answerOf_content h response content w1 NotString M).
  assert (C : match content with
              | VString _ => True
              | VArray parts => exists pieces, mapParts h parts = Normal pieces
              | _ => exists s, ToString h content = Normal s
              end).
  { unfold answerConverts in Converts.
    destruct response; try (now destruct (NotString s));
      rewrite M in Converts;
      destruct content; try exact I; try exact Converts;
      now apply mapParts_converts. }
  assert (Answer :
    exists answer,
      (match content with
       | VString s => Normal s
       | VArray parts =>
           match mapParts h parts with
           | Normal texts => Normal (concat texts)
           | Abrupt t => Abrupt t
           end
       | _ =>
           match ToString h content with
           | Normal text => Normal (orElse text (JSON_stringify h response))
           | Abrupt t => Abrupt t
           end
       end) = Normal answer /\
      match content with
      | VString s => answer = s
      | VArray parts =>
          exists pieces,
            Forall2 (PartContribution h) parts pieces /\
            answer = concat pieces
      | _ =>
          exists s,
            ToString h content = Normal s /\
            ((s <> [] /\ answer = s) \/
             (s = [] /\ answer = JSON_stringify h response))
      end).
  { assert (Other : forall s,
              (s <> [] /\ orElse s (JSON_stringify h response) = s) \/
              (s = [] /\
               orElse s (JSON_stringify h response) = JSON_stringify h response)).
    { intros [|c s]; [right | left]; split; try reflexivity; discriminate. }
    destruct content as [| |b|x|s|parts|props];
      try (destruct C as (s & C); rewrite C;
           eexists; split; [reflexivity|]; exists s; split;
           [reflexivity | apply Other]).
    - eexists. split; reflexivity.
    - destruct C as (pieces & C). rewrite C. eexists. split; [reflexivity|].
      exists pieces. split; [now apply mapParts_contributions | reflexivity]. }
  destruct Answer as (answer & -> & Described).
  exists answer, w1. split; [reflexivity|].
  destruct response; try (exists content; split; [exact M | exact Described]).
  now destruct (NotString s).
Qed.

Lemma chatWithBot_normalizes_witness :
  exists w',
    chatWithBot (Demo.host (Demo.pdfOk "unused") TimerFirst Demo.mixedResponse)
      (lit "What is the answer?") Demo.loadedWorld =
    (Normal (lit "The answer is 42."), w').
Proof.
  destruct (@chatWithBot_normalizes
              (Demo.host (Demo.pdfOk "unused") TimerFirst Demo.mixedResponse)
              (lit "What is the answer?") Demo.loadedWorld
              _ _ _ Demo.mixedResponse
              eq_refl eq_refl eq_refl eq_refl)
    as (answer & w' & E & _); try discriminate.
  - cbn. repeat constructor; intros props v [=]; subst props;
      intros [= <-]; now eexists.
  - exists w'. rewrite E. vm_compute in E. injection E as <- _. reflexivity.
Defined.

(** C3 as stated fails, in two ways.  Reading [content] of a [null]
    response throws a [TypeError], which [chatWithBot] does not catch.
    And for a response that is neither [null] nor [undefined],
    [String(content)] throws a [TypeError] when [content] is a plain
    object with a property of its own named [toString], as
    [String(part.text)] does on such a [text]. *)
Lemma response_shapes_that_throw :
  ~ (forall (h : Host) (message : jsstring) (w : World)
            (store : MemoryVectorStore) (handle : ChatGroq)
            (docs : list Document) (response : JSValue),
        vectorStore (sessionCache w) = Some store ->
        llm (sessionCache w) = Some handle ->
        getRelevantDocuments h (trace w) store 3 message = Normal docs ->
        invoke h (trace w ++ [EvGetRelevantDocuments store 3 message]) handle
          (promptOf docs message) = Normal response ->
        exists answer w', chatWithBot h message w = (Normal answer, w'))
  /\
  ~ (forall (h : Host) (message : jsstring) (w : World)
            (store : MemoryVectorStore) (handle : ChatGroq)
            (docs : list Document) (response : JSValue),
        vectorStore (sessionCache w) = Some store ->
        llm (sessionCache w) = Some handle ->
        getRelevantDocuments h (trace w) store 3 message = Normal docs ->
        invoke h (trace w ++ [EvGetRelevantDocuments store 3 message]) handle
          (promptOf docs message) = Normal response ->
        response <> VNull ->
        response <> VUndefined ->
        exists answer w', chatWithBot h message w = (Normal answer, w')).
Proof.
  split; intros Claim.
  - destruct (Claim (Demo.host (Demo.pdfOk "unused") TimerFirst VNull)
                (lit "What is the answer?") Demo.loadedWorld
                _ _ _ VNull eq_refl eq_refl eq_refl eq_refl)
      as (answer & w' & E).
    vm_compute in E. discriminate E.
  - pose (response :=
            VObject [(lit "content",
                      VObject [(lit "toString", VNumber (S754_zero false))])]).
    destruct (Claim (Demo.host (Demo.pdfOk "unused") TimerFirst response)
                (lit "What is the answer?") Demo.loadedWorld
                _ _ _ response eq_refl eq_refl eq_refl eq_refl)
      as (answer & w' & E); [discriminate | discriminate |].
    vm_compute in E. discriminate E.
Qed.

(** The conditions of the amended statement are needed: a response from
    which [answerOf] takes an answer is neither [null] nor [undefined],
    and the conversions that the answer needs return on it. *)
Lemma mapParts_normal_converts
    (h : Host) (parts : list JSValue) (pieces : list jsstring) :
  mapParts h parts = Normal pieces ->
  Forall (fun part =>
            forall props v,
              part = VObject props ->
              getProp props (lit "text") = Some v ->
              exists s, ToString h v = Normal s) parts.
Proof.
  revert pieces. induction parts as [|part rest IH]; simpl; intros pieces E;
    [constructor|].
  destruct (partText h part) as [s|t] eqn:P; [|discriminate E].
  destruct (mapParts h rest) as [ss|t] eqn:R; [|discriminate E].
  constructor; [|now apply (IH ss)].
  intros props v -> G. simpl in P. rewrite G in P. now exists s.
Qed.

Lemma answerOf_normal_converts
    (h : Host) (response : JSValue) (w : World) (answer : jsstring)
    (w' : World) :
  answerOf h response w = (Normal answer, w') ->
  response <> VNull /\ response <> VUndefined /\ answerConverts h response.
Proof.
  destruct (classify_response response)
    as [[-> | ->] | [(s & ->) | (content & NotString & M)]];
    try discriminate.
  - intros _. split; [discriminate|]. split; [discriminate | exact I].
  - rewrite (@answerOf_content h response content w NotString M).
    intros E.
    split; [intros ->; discriminate M|].
    split; [intros ->; discriminate M|].
    assert (Shape :
      answerConverts h response =
      match memberOf response (lit "content") with
      | None | Some (VString _) => True
      | Some (VArray parts) =>
          Forall (fun part =>
                    forall props v,
                      part = VObject props ->
                      getProp props (lit "text") = Some v ->
                      exists s, ToString h v = Normal s) parts
      | Some content => exists s, ToString h content = Normal s
      end).
    { destruct response; try reflexivity. now destruct (NotString s). }
    rewrite Shape, M.
    destruct content as [| |b|x|s|parts|props]; try exact I;
      try (destruct (ToString h _) as [s'|t]; [now exists s' | discriminate E]).
    destruct (mapParts h parts) as [pieces|t] eqn:P; [|discriminate E].
    now apply (mapParts_normal_converts h parts P).
Qed.

(** The same for a [text] of a part of an array [content]. *)
Example unconvertible_part_text_throws :
  let response :=
    VObject [(lit "content",
              VArray [VObject [(lit "text",
                                VObject [(lit "toString", VNull)])]])] in
  fst (chatWithBot (Demo.host (Demo.pdfOk "unused") TimerFirst response)
         (lit "What is the answer?") Demo.loadedWorld) =
  Abrupt TYPE_ERROR_PRIMITIVE.
Proof. vm_compute. reflexivity. Qed.

(* ================================================================== *)
(** * More on strings: [trim] and [includes] *)
(* ================================================================== *)

Lemma trimStart_split (s : jsstring) :
  exists p, s = p ++ trimStart s /\ Forall (fun c => isTrimmable c = true) p.
Proof.
  induction s as [|c s (p & E & F)]; [now exists []|].
  simpl. destruct (isTrimmable c) eqn:T.
  - exists (c :: p). split; [simpl; now f_equal | now constructor].
  - now exists [].
Qed.

Lemma trimStart_head (s : jsstring) (c : N) (r : jsstring) :
  trimStart s = c :: r -> isTrimmable c = false.
Proof.
  induction s as [|x s IH]; simpl; [discriminate|].
  destruct (isTrimmable x) eqn:T; [exact IH|]. now intros [= <- _].
Qed.

Lemma trimStart_fixed (s : jsstring) :
  match s with [] => True | c :: _ => isTrimmable c = false end ->
  trimStart s = s.
Proof. destruct s as [|c s]; simpl; [easy|]. now intros ->. Qed.

Lemma trimStart_all (s : jsstring) :
  Forall (fun c => isTrimmable c = true) s -> trimStart s = [].
Proof. induction 1 as [|c s T _ IH]; simpl; [easy|]. now rewrite T. Qed.

(** [trim] keeps a middle part of the string. *)
Lemma trim_split (s : jsstring) :
  exists p q, s = p ++ trim s ++ q /\
              Forall (fun c => isTrimmable c = true) p /\
              Forall (fun c => isTrimmable c = true) q.
Proof.
  unfold trim, trimEnd.
  destruct (trimStart_split s) as (p & Ep & Fp).
  remember (trimStart s) as u eqn:U. clear U.
  destruct (trimStart_split (rev u)) as (q & Eq & Fq).
  exists p, (rev q). split; [|split].
  - rewrite Ep. f_equal.
    apply (f_equal (@rev N)) in Eq.
    now rewrite rev_involutive, rev_app_distr in Eq.
  - exact Fp.
  - now apply Forall_rev.
Qed.

Lemma last_rev_head (c : N) (s : jsstring) (d : N) :
  last (rev (c :: s)) d = c.
Proof. simpl. now rewrite last_last. Qed.

(** What [trim] returns has no white space at either end. *)
Lemma trim_trimmed (s : jsstring) : trimmed (trim s).
Proof.
  unfold trimmed.
  destruct (trim s) as [|c t] eqn:E; [exact I|].
  unfold trim, trimEnd in E.
  destruct (trimStart (rev (trimStart s))) as [|x r] eqn:R;
    [discriminate E|].
  pose proof (trimStart_head _ R) as Tx.
  split.
  - (* the head of the result is the head of [trimStart s] *)
    destruct (trimStart_split (rev (trimStart s))) as (q & Eq & _).
    rewrite R in Eq. apply (f_equal (@rev N)) in Eq.
    rewrite rev_involutive, rev_app_distr, E in Eq.
    destruct (trimStart s) as [|y u] eqn:U; [discriminate Eq|].
    injection Eq as -> _. exact (trimStart_head _ U).
  - rewrite <- E. now rewrite last_rev_head.
Qed.

Lemma trim_fixed (s : jsstring) : trimmed s -> trim s = s.
Proof.
  destruct s as [|c s]; [reflexivity|]. intros [H L].
  unfold trim, trimEnd.
  rewrite (trimStart_fixed (c :: s)) by exact H.
  destruct (rev (c :: s)) as [|x r] eqn:R.
  - apply (f_equal (@rev N)) in R. rewrite rev_involutive in R. discriminate R.
  - assert (x = last (c :: s) c) as ->.
    { apply (f_equal (@rev N)) in R. rewrite rev_involutive in R.
      rewrite R. simpl. now rewrite last_last. }
    rewrite trimStart_fixed by exact L.
    rewrite <- R. apply rev_involutive.
Qed.

Lemma trim_idempotent (s : jsstring) : trim (trim s) = trim s.
Proof. apply trim_fixed, trim_trimmed. Qed.

Lemma trim_all (s : jsstring) :
  Forall (fun c => isTrimmable c = true) s -> trim s = [].
Proof.
  intros F. unfold trim, trimEnd. now rewrite (trimStart_all F).
Qed.

Lemma isBlank_false (s : jsstring) :
  isBlank (Some s) = false <-> trim s <> [].
Proof.
  unfold isBlank. destruct s as [|c s]; [simpl; split; easy|].
  destruct (trim (c :: s)); simpl; split; easy.
Qed.

Lemma startsWith_app (m r : jsstring) : startsWith m (m ++ r) = true.
Proof.
  induction m as [|c m IH]; [now destruct r|].
  simpl. now rewrite N.eqb_refl, IH.
Qed.

Lemma includes_here (s m : jsstring) :
  startsWith m s = true -> includes s m = true.
Proof. intros H. destruct s; simpl; now rewrite H. Qed.

Lemma includes_app (a m b : jsstring) : includes (a ++ m ++ b) m = true.
Proof.
  induction a as [|c a IH]; simpl.
  - apply includes_here, startsWith_app.
  - rewrite IH. apply orb_true_r.
Qed.

Lemma includes_skip (a s m : jsstring) :
  includes s m = true -> includes (a ++ s) m = true.
Proof.
  intros H. induction a as [|c a IH]; [exact H|].
  simpl. rewrite IH. apply orb_true_r.
Qed.

Lemma includes_tail (a m : jsstring) : includes (a ++ m) m = true.
Proof. rewrite <- (app_nil_r m) at 1. apply includes_app. Qed.

(* ================================================================== *)
(** * More on the chunker *)
(* ================================================================== *)

Lemma execAll_clean (max fuel : nat) (s : jsstring) :
  Forall noLineTerminator (execAll max fuel s).
Proof.
  revert s. induction fuel as [|f IH]; intros s; simpl; [constructor|].
  destruct s as [|c rest]; [constructor|].
  pose proof (dotRun_clean max (c :: rest)) as Cl.
  destruct (dotRun max (c :: rest)) as [|x m]; [apply IH|].
  constructor; [exact Cl | apply IH].
Qed.

Lemma execAll_nil (max fuel : nat) : execAll max fuel [] = [].
Proof. now destruct fuel. Qed.

(** On a text without line terminators, the matches are the consecutive
    windows of [max] code units, the last one possibly shorter. *)
Lemma execAll_windows (max fuel : nat) (s : jsstring) :
  0 < max -> noLineTerminator s -> length s <= fuel ->
  (forall i, i < length (execAll max fuel s) ->
             nth i (execAll max fuel s) [] = firstn max (skipn (i * max) s)) /\
  length s <= length (execAll max fuel s) * max /\
  length (execAll max fuel s) * max < length s + max.
Proof.
  intros Hmax. revert s. induction fuel as [|f IH]; intros s Hs Hf.
  - destruct s; [|simpl in Hf; lia].
    split; [intros i Hi; simpl in Hi; lia | split; simpl; lia].
  - destruct s as [|c rest];
      [split; [intros i Hi; simpl in Hi; lia | split; simpl; lia]|].
    cbn [execAll]. rewrite (dotRun_firstn max Hs).
    destruct (firstn max (c :: rest)) as [|x m] eqn:E.
    { destruct max; [lia | discriminate E]. }
    rewrite <- E.
    assert (L : length (firstn max (c :: rest)) = Nat.min max (length (c :: rest)))
      by apply length_firstn.
    set (tl := skipn (length (firstn max (c :: rest))) (c :: rest)).
    assert (Htl : noLineTerminator tl).
    { unfold tl, noLineTerminator.
      rewrite <- (firstn_skipn (length (firstn max (c :: rest))) (c :: rest)) in Hs.
      apply Forall_app in Hs. apply Hs. }
    assert (Ltl : length tl = length (c :: rest) - Nat.min max (length (c :: rest))).
    { unfold tl. now rewrite length_skipn, L. }
    assert (Lpos : 1 <= length (c :: rest)) by (simpl; lia).
    destruct (IH tl Htl) as (Nth & Lo & Hi); [lia|].
    split; [|split].
    + intros [|i] Hi'; [reflexivity|].
      cbn [nth]. simpl in Hi'. rewrite Nth by lia.
      unfold tl. rewrite skipn_skipn, L.
      destruct (Nat.le_gt_cases max (length (c :: rest))) as [Le|Gt].
      * rewrite Nat.min_l by exact Le.
        replace (i * max + max) with (S i * max) by lia. reflexivity.
      * (* the text fits in one window: there is no further match *)
        exfalso. rewrite Nat.min_r in Ltl by lia.
        assert (tl = []) as Z by (destruct tl; simpl in Ltl; [easy | lia]).
        rewrite Z, execAll_nil in Hi'. simpl in Hi'. lia.
    + cbn [length] in *.
      destruct (Nat.le_gt_cases max (S (length rest))); lia.
    + cbn [length] in *.
      destruct (Nat.le_gt_cases max (S (length rest))) as [Le|Gt].
      * rewrite Nat.min_l in Ltl by exact Le. lia.
      * rewrite Nat.min_r in Ltl by lia.
        assert (tl = []) as Z by (destruct tl; simpl in Ltl; [easy | lia]).
        rewrite Z, execAll_nil. simpl. lia.
Qed.

Lemma firstn_nil_iff {A} (n : nat) (l : list A) :
  0 < n -> (firstn n l = [] <-> l = []).
Proof.
  intros H. destruct n; [lia|]. destruct l; simpl; split; easy.
Qed.

Lemma concat_nil_nonempty (l : list jsstring) :
  Forall (fun c => 1 <= length c) l -> concat l = [] -> l = [].
Proof.
  intros F. destruct F as [|c l Hc _]; [easy|].
  simpl. destruct c; [simpl in Hc; lia | discriminate].
Qed.

(** X1. For every text, the chunks in order spell an initial part of the
    text without its line terminators: all of it when the pattern
    matched at most 50 times, and at most 50000 code units in any
    case. *)
Theorem chunks_spell_text_without_line_terminators (text : jsstring) :
  isPrefixOf (concat (chunker text)) (stripLineTerminators text) /\
  (length (allChunks text) <= 50 ->
   concat (chunker text) = stripLineTerminators text) /\
  length (concat (chunker text)) <= 50 * 1000.
Proof.
  rewrite chunker_firstn, <- allChunks_concat. split; [|split].
  - apply concat_firstn_prefix.
  - intros H. now rewrite firstn_all2.
  - etransitivity.
    + apply concat_length_bound with (k := 1000).
      apply Forall_firstn.
      eapply Forall_impl; [|apply allChunks_lengths].
      unfold CHUNK_SIZE; simpl; lia.
    + rewrite length_firstn. unfold MAX_CHUNKS. lia.
Qed.

(** X2. On a text without line terminators the chunks are the fixed
    windows of the text: chunk [i] is the 1000 code units from position
    [1000 * i] (fewer at the end of the text), and the pattern matches
    as many times as windows are needed to cover the text, of which the
    first 50 are kept. *)
Theorem chunks_are_windows_of_single_line (text : jsstring) :
  noLineTerminator text ->
  (forall i, i < length (chunker text) ->
             nth i (chunker text) [] = firstn 1000 (skipn (i * 1000) text)) /\
  length (chunker text) = Nat.min 50 (length (allChunks text)) /\
  length text <= length (allChunks text) * 1000 /\
  length (allChunks text) * 1000 < length text + 1000.
Proof.
  intros H.
  destruct (@execAll_windows 1000 (length text) text) as (Nth & Lo & Hi);
    [lia | exact H | lia |].
  rewrite <- allChunks_eq in *.
  rewrite chunker_firstn, length_firstn. unfold MAX_CHUNKS.
  split; [|split; [reflexivity | split; assumption]].
  intros i Hi'.
  rewrite <- (firstn_skipn 50 (allChunks text)) in Nth.
  specialize (Nth i). rewrite app_nth1 in Nth by (rewrite length_firstn; lia).
  apply Nth. rewrite firstn_skipn. lia.
Qed.

Lemma chunks_are_windows_of_single_line_witness :
  let text := repeat 0x61%N 2500 in
  map (@length N) (chunker text) = [1000; 1000; 500] /\
  nth 2 (chunker text) [] = firstn 1000 (skipn 2000 text).
Proof.
  intros text.
  assert (H : noLineTerminator text).
  { apply Forall_forall. intros c Hc. apply repeat_spec in Hc. now subst. }
  split; [vm_compute; reflexivity|].
  destruct (chunks_are_windows_of_single_line H) as (Nth & _).
  apply (Nth 2). vm_compute. lia.
Defined.

Lemma chunker_nil_iff (text : jsstring) :
  chunker text = [] <-> stripLineTerminators text = [].
Proof.
  rewrite chunker_firstn, firstn_nil_iff by (unfold MAX_CHUNKS; lia).
  rewrite <- allChunks_concat. split; [now intros -> |].
  apply concat_nil_nonempty.
  eapply Forall_impl; [|apply allChunks_lengths]. simpl; lia.
Qed.

(** X3. No chunk is empty and no chunk holds a line terminator; and the
    chunker returns no chunk at all exactly when the text is empty or
    made of line terminators only. *)
Theorem chunks_are_nonempty_lines (text : jsstring) :
  Forall (fun c => c <> [] /\ noLineTerminator c) (chunker text) /\
  (chunker text = [] <-> stripLineTerminators text = []).
Proof.
  rewrite chunker_firstn. split.
  - apply Forall_firstn. apply Forall_forall. intros c Hc. split.
    + pose proof (allChunks_lengths text) as L.
      rewrite Forall_forall in L. specialize (L c Hc).
      destruct c; [simpl in L; lia | discriminate].
    + pose proof (execAll_clean CHUNK_SIZE (length text) text) as C.
      rewrite <- allChunks_eq, Forall_forall in C. now apply C.
  - rewrite <- chunker_firstn. apply chunker_nil_iff.
Qed.

(* ================================================================== *)
(** * More on [extractText] *)
(* ================================================================== *)

(** The promise resolves only with the trimmed text of a data-ready
    event, and only when that text is not blank. *)
Lemma fallbackPromise_normal
    (h : Host) (buffer : Buffer) (w : World) (text : jsstring) (w' : World) :
  fallbackPromise h buffer w = (Normal text, w') ->
  exists pdfData,
    parseBuffer h (trace w ++ [EvSetTimeout 30000]) buffer
    = DataReadyFirst pdfData /\
    isBlank (Some (fullTextOf h pdfData)) = false /\
    text = trim (fullTextOf h pdfData).
Proof.
  unfold fallbackPromise, bind, emit, perform, throw, ret.
  cbn -[isBlank trim]. unfold FALLBACK_TIMEOUT_MS.
  destruct (parseBuffer h _ buffer) as [t| |perr|data]; cbn -[isBlank trim];
    try discriminate.
  destruct (isBlank (Some (fullTextOf h data))) eqn:B; [discriminate|].
  intros [= <- _]. now exists data.
Qed.

Lemma trim_not_blank (s : jsstring) :
  isBlank (Some s) = false -> isBlank (Some (trim s)) = false.
Proof. rewrite !isBlank_false. now rewrite trim_idempotent. Qed.

(** The [catch] clause of the PDF branch completes normally only
    through the fallback promise. *)
Lemma pdfCatch_normal
    (h : Host) (buffer : Buffer) (error : Thrown) (w : World)
    (extracted : jsstring) (w' : World) :
  pdfCatch h buffer error w = (Normal extracted, w') ->
  exists errorMessage,
    messageOf h error = Normal errorMessage /\
    includes errorMessage (lit "XRef")
    || includes errorMessage (lit "xref") = true /\
    exists pdfData,
      parseBuffer h (trace w ++ [EvPdf2JsonNew; EvSetTimeout 30000]) buffer
      = DataReadyFirst pdfData /\
      isBlank (Some (fullTextOf h pdfData)) = false /\
      extracted = trim (fullTextOf h pdfData).
Proof.
  unfold pdfCatch. unfold bind at 1. unfold evaluate at 1.
  destruct (messageOf h error) as [errorMessage|t]; [|discriminate].
  intros E. exists errorMessage. split; [reflexivity|]. revert E.
  destruct (includes errorMessage (lit "XRef")
            || includes errorMessage (lit "xref")).
  - pose proof (@fallbackPromise_normal h buffer) as F.
    remember (fallbackPromise h buffer) as promise eqn:P. clear P.
    unfold bind, tryCatch, await, ret, throw, evaluate. cbn.
    destruct (PDFParser_new h (trace w)) as [u|e]; cbn;
      [|destruct (messageOf h e); discriminate].
    intros E. apply F in E. cbn in E. rewrite <- app_assoc in E.
    destruct E as (data & S & B & T).
    split; [reflexivity|]. now exists data.
  - destruct (_ || _); discriminate.
Qed.

(** X4. A text that [extractText] returns for a PDF or a DOCX file is
    never blank: it has at least one code unit that is neither white
    space nor a line terminator.  (Plain text has no such check.) *)
Theorem extracted_text_is_not_blank
    (h : Host) (file : File) (w : World) (extracted : jsstring) (w' : World) :
  extractText h file w = (Normal extracted, w') ->
  type file <> lit "text/plain" ->
  isBlank (Some extracted) = false /\ trim extracted <> [].
Proof.
  intros E NotTxt.
  enough (isBlank (Some extracted) = false) as B
    by (split; [exact B | now apply isBlank_false]).
  revert E. unfold extractText.
  destruct (JS.eqb (type file) MIME_PDF).
  - unfold tryCatch, bind, await, ret, throw. cbn -[isBlank pdfCatch].
    destruct (pdf h (trace w) (bytes file)) as [pdfData|error].
    + destruct (isBlank (text pdfData)) eqn:B.
      * intros E. apply pdfCatch_normal in E.
        destruct E as (m & M & X & _). unfold messageOf in M. injection M as <-.
        vm_compute in X. discriminate X.
      * destruct pdfData as [[t|]]; [|discriminate B].
        cbn. now intros [= <- _].
    + intros E. apply pdfCatch_normal in E.
      destruct E as (m & _ & _ & data & _ & B & ->). now apply trim_not_blank.
  - destruct (JS.eqb (type file) MIME_TXT) eqn:Txt.
    + apply eqb_eq in Txt. contradiction.
    + destruct (JS.eqb (type file) MIME_DOCX); [|discriminate].
      unfold tryCatch, bind, await, ret, throw, evaluate. cbn -[isBlank].
      destruct (mammoth_extractRawText h (trace w) (bytes file))
        as [result|error]; [|cbn; destruct (messageOf h error); discriminate].
      destruct (isBlank (value result)) eqn:B; [discriminate|].
      destruct result as [[t|]]; [|discriminate B].
      cbn. now intros [= <- _].
Qed.

Lemma extracted_text_is_not_blank_witness :
  let h := Demo.host (Demo.pdfError "bad XRef entry")
             (DataReadyFirst (Demo.onePage "  recovered text")) VNull in
  trim (lit "recovered text") <> [].
Proof.
  intros h.
  refine (proj2 (@extracted_text_is_not_blank h
                   (Demo.fileOf "application/pdf" "%PDF-1.4") initialWorld
                   (lit "recovered text")
                   (snd (extractText h
                           (Demo.fileOf "application/pdf" "%PDF-1.4")
                           initialWorld)) _ _)).
  - vm_compute. reflexivity.
  - vm_compute. discriminate.
Defined.

(** What the promise of the fallback does, by the way it settles. *)
Lemma fallbackPromise_settled (h : Host) (buffer : Buffer) (w : World) :
  fallbackPromise h buffer w =
  let after added := mkWorld (sessionCache w) (trace w ++ added) in
  match parseBuffer h (trace w ++ [EvSetTimeout 30000]) buffer with
  | ExecutorThrows t =>
      (Abrupt t, after [EvSetTimeout 30000; EvParseBuffer buffer])
  | TimerFirst =>
      (Abrupt (ErrorObject MSG_TIMEOUT),
       after [EvSetTimeout 30000; EvParseBuffer buffer])
  | DataErrorFirst parserError =>
      (Abrupt (ErrorObject (lit "PDF parsing error: " ++ parserError)),
       after [EvSetTimeout 30000; EvParseBuffer buffer; EvClearTimeout])
  | DataReadyFirst pdfData =>
      (if isBlank (Some (fullTextOf h pdfData))
       then Abrupt (ErrorObject MSG_PDF_EMPTY)
       else Normal (trim (fullTextOf h pdfData)),
       after [EvSetTimeout 30000; EvParseBuffer buffer; EvClearTimeout])
  end.
Proof.
  unfold fallbackPromise, bind, emit, perform, throw, ret.
  cbn -[isBlank trim]. unfold FALLBACK_TIMEOUT_MS.
  destruct (parseBuffer h _ buffer) as [t| |perr|data]; cbn -[isBlank trim];
    rewrite <- ?app_assoc; try reflexivity.
  now destruct (isBlank (Some (fullTextOf h data))).
Qed.

Section Fallback.

Variables (h : Host) (file : File) (w : World) (error : Thrown).
Variable errorMessage : jsstring.

Hypothesis declared_pdf : type file = lit "application/pdf".
Hypothesis primary_fails : pdf h (trace w) (bytes file) = Abrupt error.
Hypothesis message_computed : messageOf h error = Normal errorMessage.
Hypothesis names_xref :
  includes errorMessage (lit "XRef")
  || includes errorMessage (lit "xref") = true.

(** X5. When the primary parser fails on the cross-reference table and
    the fallback parser cannot even be created, [extractText] throws one
    error whose message starts with the file-structure explanation and
    carries both the primary error's message and the fallback error's;
    no timer is armed and no parse is started.  (When the message of the
    fallback error cannot be computed, what [extractText] throws is the
    exception of that conversion, after the same two calls.) *)
Theorem fallback_that_cannot_start (fallbackError : Thrown) :
  PDFParser_new h (trace w ++ [EvPdfParse (bytes file)]) = Abrupt fallbackError ->
  let after :=
    mkWorld (sessionCache w)
      (trace w ++ [EvPdfParse (bytes file); EvPdf2JsonNew]) in
  match messageOf h fallbackError with
  | Normal fallbackErrorMsg =>
      exists message,
        extractText h file w = (Abrupt (ErrorObject message), after) /\
        startsWith
          (lit "PDF parsing failed due to file structure issues (bad XRef entry). ")
          message = true /\
        includes message (lit "Technical details: " ++ errorMessage) = true /\
        includes message (lit ". Fallback error: " ++ fallbackErrorMsg) = true
  | Abrupt t => extractText h file w = (Abrupt t, after)
  end.
Proof.
  intros N after. subst after.
  rewrite (@extractText_xref h file w error errorMessage declared_pdf
             primary_fails message_computed names_xref).
  cbv zeta. rewrite N.
  destruct (messageOf h fallbackError) as [fallbackErrorMsg|t];
    [|now rewrite <- app_assoc].
  eexists. split; [|split; [|split]].
  - now rewrite <- app_assoc.
  - unfold fallbackFailureMessage. apply startsWith_app.
  - unfold fallbackFailureMessage.
    do 4 apply includes_skip.
    rewrite app_assoc. apply includes_here, startsWith_app.
  - unfold fallbackFailureMessage.
    do 6 apply includes_skip.
    apply includes_here. rewrite <- (app_nil_r (_ ++ _)) at 2.
    apply startsWith_app.
Qed.

(** X6. Once the fallback parser is created, a rejection of its promise
    reaches the caller of [extractText] as it is: a parser error as
    [PDF parsing error: ...] with the timer cleared, an exception of the
    executor as the very value thrown.  The [catch] clause around the
    fallback does not see them, and its file-structure message is not
    used. *)
Theorem fallback_rejection_is_not_wrapped (u : unit) :
  PDFParser_new h (trace w ++ [EvPdfParse (bytes file)]) = Normal u ->
  let buffer := bytes file in
  let past :=
    trace w ++ [EvPdfParse buffer; EvPdf2JsonNew; EvSetTimeout 30000] in
  (forall parserError,
      parseBuffer h past buffer = DataErrorFirst parserError ->
      extractText h file w =
      (Abrupt (ErrorObject (lit "PDF parsing error: " ++ parserError)),
       mkWorld (sessionCache w)
         (past ++ [EvParseBuffer buffer; EvClearTimeout]))) /\
  (forall t,
      parseBuffer h past buffer = ExecutorThrows t ->
      extractText h file w =
      (Abrupt t,
       mkWorld (sessionCache w) (past ++ [EvParseBuffer buffer]))).
Proof.
  intros N buffer past.
  pose proof (@extractText_xref h file w error errorMessage declared_pdf
                primary_fails message_computed names_xref) as E.
  cbv zeta in E. rewrite N, fallbackPromise_settled in E.
  cbn -[isBlank trim] in E. rewrite <- !app_assoc in E. cbn -[isBlank trim] in E.
  fold buffer in E. subst past.
  split; intros x S; rewrite S in E; rewrite E; now rewrite <- app_assoc.
Qed.

(** X7. When the fallback delivers pages in which no run carries any
    text, whatever their number, [extractText] throws the
    empty-extraction error, unwrapped. *)
Theorem pdf_without_run_text_is_refused (u : unit) (pdfData : PdfJson) :
  PDFParser_new h (trace w ++ [EvPdfParse (bytes file)]) = Normal u ->
  parseBuffer h
    (trace w ++ [EvPdfParse (bytes file); EvPdf2JsonNew; EvSetTimeout 30000])
    (bytes file) = DataReadyFirst pdfData ->
  noRunText pdfData ->
  fst (extractText h file w) =
  Abrupt
    (ErrorObject
       (lit "PDF appears to be empty or contains no extractable text")).
Proof.
  intros N S Empty.
  rewrite (@extractText_xref h file w error errorMessage declared_pdf
             primary_fails message_computed names_xref).
  cbv zeta. rewrite N, fallbackPromise_settled.
  cbn -[isBlank trim]. rewrite <- !app_assoc. cbn -[isBlank trim].
  rewrite S. cbn -[isBlank trim].
  assert (All : Forall (fun c => isTrimmable c = true) (fullTextOf h pdfData)).
  { unfold fullTextOf. unfold noRunText in Empty.
    destruct (Pages pdfData) as [pages|]; [|constructor].
    apply Forall_concat, Forall_map, Forall_forall. intros page Hp.
    unfold pageText. destruct (Texts page) as [items|] eqn:Tx; [|constructor].
    apply Forall_app. split; [|now repeat constructor].
    apply Forall_concat, Forall_map, Forall_forall. intros item Hi.
    unfold textItemText. destruct (R item) as [runs|] eqn:Rx; [|constructor].
    apply Forall_concat, Forall_map, Forall_forall. intros run Hr.
    unfold runText.
    rewrite (Empty pages page items item runs run eq_refl Hp Tx Hi Rx Hr).
    constructor. }
  unfold isBlank. rewrite (trim_all All).
  now destruct (fullTextOf h pdfData).
Qed.

End Fallback.

Lemma fallback_that_cannot_start_witness :
  let h := Scenario.noPdf2json (Demo.pdfError "bad XRef entry") in
  exists message,
    fst (extractText h (Demo.fileOf "application/pdf" "%PDF-1.4") initialWorld)
    = Abrupt (ErrorObject message) /\
    includes message (lit ". Fallback error: Cannot find module 'pdf2json'")
    = true.
Proof.
  intros h.
  destruct (@fallback_that_cannot_start h
              (Demo.fileOf "application/pdf" "%PDF-1.4") initialWorld
              (ErrorObject (lit "bad XRef entry")) (lit "bad XRef entry")
              eq_refl eq_refl eq_refl eq_refl
              (ErrorObject (lit "Cannot find module 'pdf2json'")) eq_refl)
    as (message & E & _ & _ & F).
  exists message. rewrite E. split; [reflexivity | exact F].
Defined.

Lemma fallback_rejection_is_not_wrapped_witness :
  let h := Demo.host (Demo.pdfError "bad XRef entry")
             (DataErrorFirst (lit "Invalid PDF structure")) VNull in
  fst (extractText h (Demo.fileOf "application/pdf" "%PDF-1.4") initialWorld)
  = Abrupt (ErrorObject (lit "PDF parsing error: Invalid PDF structure")).
Proof.
  intros h.
  destruct (@fallback_rejection_is_not_wrapped h
              (Demo.fileOf "application/pdf" "%PDF-1.4") initialWorld
              (ErrorObject (lit "bad XRef entry")) (lit "bad XRef entry")
              eq_refl eq_refl eq_refl eq_refl
              tt eq_refl) as [D _].
  rewrite (D (lit "Invalid PDF structure") eq_refl). reflexivity.
Defined.

Lemma pdf_without_run_text_is_refused_witness :
  let pdfData :=
    mkPdfJson (Some [mkPage (Some [mkTextItem (Some [mkRun []])]);
                     mkPage (Some []); mkPage None]) in
  let h := Demo.host (Demo.pdfError "bad XRef entry")
             (DataReadyFirst pdfData) VNull in
  fst (extractText h (Demo.fileOf "application/pdf" "%PDF-1.4") initialWorld)
  = Abrupt (ErrorObject MSG_PDF_EMPTY).
Proof.
  intros pdfData h.
  apply (@pdf_without_run_text_is_refused h
           (Demo.fileOf "application/pdf" "%PDF-1.4") initialWorld
           (ErrorObject (lit "bad XRef entry")) (lit "bad XRef entry")
           eq_refl eq_refl eq_refl eq_refl
           tt pdfData eq_refl eq_refl).
  intros pages page items item runs run [= <-] Hp Tx Hi Rx Hr.
  destruct Hp as [<-|[<-|[<-|[]]]]; simpl in Tx; try discriminate;
    injection Tx as <-; [|destruct Hi].
  destruct Hi as [<-|[]]. simpl in Rx. injection Rx as <-.
  destruct Hr as [<-|[]]. reflexivity.
Defined.

(** X8. A PDF extraction succeeds in one of two ways only: the primary
    parser returned that very text, not blank and not trimmed, and no
    other call was made; or the primary parser failed with a message
    naming the cross-reference table and the text is the trimmed text of
    the pages the fallback delivered, with no white space at either
    end. *)
Theorem pdf_text_comes_from_one_parser
    (h : Host) (file : File) (w : World) (extracted : jsstring) (w' : World) :
  type file = lit "application/pdf" ->
  extractText h file w = (Normal extracted, w') ->
  (pdf h (trace w) (bytes file) = Normal (mkPdfData (Some extracted)) /\
   w' = mkWorld (sessionCache w) (trace w ++ [EvPdfParse (bytes file)]))
  \/
  (exists error errorMessage pdfData,
      pdf h (trace w) (bytes file) = Abrupt error /\
      messageOf h error = Normal errorMessage /\
      includes errorMessage (lit "XRef")
      || includes errorMessage (lit "xref") = true /\
      parseBuffer h
        (trace w ++ [EvPdfParse (bytes file); EvPdf2JsonNew; EvSetTimeout 30000])
        (bytes file) = DataReadyFirst pdfData /\
      extracted = trim (fullTextOf h pdfData) /\
      extracted <> [] /\ trimmed extracted).
Proof.
  intros Ty. unfold extractText. rewrite Ty.
  change (JS.eqb (lit "application/pdf") MIME_PDF) with true. cbv iota.
  unfold tryCatch, bind, await, ret, throw. cbn -[isBlank pdfCatch trim].
  destruct (pdf h (trace w) (bytes file)) as [pdfData|error].
  - destruct (isBlank (text pdfData)) eqn:B.
    + intros E. apply pdfCatch_normal in E.
      destruct E as (m & M & X & _). unfold messageOf in M. injection M as <-.
        vm_compute in X. discriminate X.
    + destruct pdfData as [[t|]]; [|discriminate B].
      cbn. intros [= <- <-]. now left.
  - intros E. apply pdfCatch_normal in E.
    destruct E as (m & M & X & data & S & B & ->).
    right. exists error, m, data. cbn in S. rewrite <- app_assoc in S.
    repeat (split; [assumption || reflexivity|]).
    split; [now apply isBlank_false | apply trim_trimmed].
Qed.

Lemma pdf_text_comes_from_one_parser_witness :
  let h := Demo.host (Demo.pdfOk "  Lease agreement ") TimerFirst VNull in
  pdf h [] (Demo.asciiBytes "%PDF-1.4")
  = Normal (mkPdfData (Some (lit "  Lease agreement "))).
Proof.
  intros h.
  destruct (@pdf_text_comes_from_one_parser h
              (Demo.fileOf "application/pdf" "%PDF-1.4") initialWorld
              (lit "  Lease agreement ")
              (mkWorld emptyCache [EvPdfParse (Demo.asciiBytes "%PDF-1.4")])
              eq_refl eq_refl) as [[P _] | (error & m & data & P & _)].
  - exact P.
  - discriminate P.
Defined.

(** X9. When the primary PDF parser fails with a message that names
    neither the cross-reference table nor a password or encryption,
    [extractText] throws one error that carries that message after a
    fixed explanation, and calls nothing else. *)
Theorem pdf_failure_is_reported_with_its_message
    (h : Host) (file : File) (w : World) (error : Thrown)
    (errorMessage : jsstring) :
  type file = lit "application/pdf" ->
  pdf h (trace w) (bytes file) = Abrupt error ->
  messageOf h error = Normal errorMessage ->
  includes errorMessage (lit "XRef")
  || includes errorMessage (lit "xref") = false ->
  includes errorMessage (lit "password")
  || includes errorMessage (lit "encrypted") = false ->
  extractText h file w =
  (Abrupt
     (ErrorObject
        (lit "Failed to parse PDF. The file may be corrupted or in an unsupported format: "
         ++ errorMessage)),
   mkWorld (sessionCache w) (trace w ++ [EvPdfParse (bytes file)])).
Proof.
  intros Ty P M X Enc.
  rewrite (@extractText_no_xref h file w error errorMessage Ty P M X).
  now rewrite Enc.
Qed.

Lemma pdf_failure_is_reported_with_its_message_witness :
  fst (extractText (Demo.host (Demo.pdfError "Invalid PDF structure")
                      TimerFirst VNull)
         (Demo.fileOf "application/pdf" "garbage") initialWorld)
  = Abrupt
      (ErrorObject
         (lit "Failed to parse PDF. The file may be corrupted or in an unsupported format: Invalid PDF structure")).
Proof.
  rewrite (@pdf_failure_is_reported_with_its_message
             (Demo.host (Demo.pdfError "Invalid PDF structure") TimerFirst VNull)
             (Demo.fileOf "application/pdf" "garbage") initialWorld
             (ErrorObject (lit "Invalid PDF structure"))
             (lit "Invalid PDF structure")
             eq_refl eq_refl eq_refl eq_refl eq_refl).
  reflexivity.
Defined.

(** X10. For a DOCX file [extractText] calls mammoth once and nothing
    else.  It returns mammoth's text as it is when that text is not
    blank; otherwise it throws an [Error] whose message is
    [Failed to parse DOCX file: ] followed by the message of mammoth's
    error, or by the empty-extraction message.  (When the message of
    what mammoth threw cannot be computed, the exception of that
    conversion is thrown instead.) *)
Theorem docx_extraction (h : Host) (file : File) (w : World) :
  type file =
    lit "application/vnd.openxmlformats-officedocument.wordprocessingml.document" ->
  exists outcome,
    extractText h file w =
    (outcome, mkWorld (sessionCache w) (trace w ++ [EvMammoth (bytes file)])) /\
    match mammoth_extractRawText h (trace w) (bytes file) with
    | Normal result =>
        if isBlank (value result)
        then outcome =
             Abrupt (ErrorObject
                       (lit "Failed to parse DOCX file: "
                        ++ lit "DOCX appears to be empty or contains no extractable text"))
        else value result = Some (orEmpty (value result)) /\
             outcome = Normal (orEmpty (value result))
    | Abrupt error =>
        match messageOf h error with
        | Normal message =>
            outcome =
            Abrupt (ErrorObject (lit "Failed to parse DOCX file: " ++ message))
        | Abrupt t => outcome = Abrupt t
        end
    end.
Proof.
  intros Ty. unfold extractText. rewrite Ty.
  change (JS.eqb _ MIME_PDF) with false.
  change (JS.eqb _ MIME_TXT) with false.
  change (JS.eqb _ MIME_DOCX) with true. cbv iota.
  unfold tryCatch, bind, await, ret, throw, evaluate. cbn -[isBlank].
  destruct (mammoth_extractRawText h (trace w) (bytes file)) as [result|error].
  - destruct (isBlank (value result)) eqn:B.
    + eexists. split; reflexivity.
    + eexists. split; [reflexivity|]. split; [|reflexivity].
      destruct result as [[t|]]; [reflexivity | discriminate B].
  - cbn. destruct (messageOf h error); eexists; split; reflexivity.
Qed.

Lemma docx_extraction_witness :
  fst (extractText Scenario.corruptDocx
         (Demo.fileOf
            "application/vnd.openxmlformats-officedocument.wordprocessingml.document"
            "PK") initialWorld)
  = Abrupt
      (ErrorObject
         (lit "Failed to parse DOCX file: Can't find end of central directory")).
Proof.
  destruct (@docx_extraction Scenario.corruptDocx
              (Demo.fileOf
                 "application/vnd.openxmlformats-officedocument.wordprocessingml.document"
                 "PK") initialWorld eq_refl) as (outcome & E & O).
  rewrite E. exact O.
Defined.

(* ================================================================== *)
(** * What an action calls *)
(* ================================================================== *)

Section AppendsOnly.

Variable P : Event -> Prop.

Lemma appendsOnly_ret {A} (a : A) : appendsOnly P (ret a).
Proof. intros w. exists []. split; [now rewrite app_nil_r | constructor]. Qed.

Lemma appendsOnly_throw {A} (t : Thrown) : appendsOnly P (@throw A t).
Proof. intros w. exists []. split; [now rewrite app_nil_r | constructor]. Qed.

Lemma appendsOnly_emit (ev : Event) : P ev -> appendsOnly P (emit ev).
Proof. intros H w. exists [ev]. split; [reflexivity | now constructor]. Qed.

Lemma appendsOnly_perform {A} (ev : Event) (f : History -> A) :
  P ev -> appendsOnly P (perform ev f).
Proof. intros H w. exists [ev]. split; [reflexivity | now constructor]. Qed.

Lemma appendsOnly_await {A} (ev : Event) (f : History -> Completion A) :
  P ev -> appendsOnly P (await ev f).
Proof. intros H w. exists [ev]. split; [reflexivity | now constructor]. Qed.

Lemma appendsOnly_evaluate {A} (c : Completion A) : appendsOnly P (evaluate c).
Proof. intros w. exists []. split; [now rewrite app_nil_r | constructor]. Qed.

Lemma appendsOnly_readCache : appendsOnly P readCache.
Proof. intros w. exists []. split; [now rewrite app_nil_r | constructor]. Qed.

Lemma appendsOnly_writeCache (c : SessionCache) : appendsOnly P (writeCache c).
Proof. intros w. exists []. split; [now rewrite app_nil_r | constructor]. Qed.

Lemma appendsOnly_bind {A B} (m : Action A) (k : A -> Action B) :
  appendsOnly P m -> (forall a, appendsOnly P (k a)) -> appendsOnly P (bind m k).
Proof.
  intros Hm Hk w. unfold bind. destruct (Hm w) as (added & E & F).
  destruct (m w) as [[a|t] w1]; simpl in *; [|now exists added].
  destruct (Hk a w1) as (added' & E' & F').
  exists (added ++ added'). split.
  - now rewrite E', E, app_assoc.
  - now apply Forall_app.
Qed.

Lemma appendsOnly_tryCatch {A} (m : Action A) (k : Thrown -> Action A) :
  appendsOnly P m -> (forall t, appendsOnly P (k t)) ->
  appendsOnly P (tryCatch m k).
Proof.
  intros Hm Hk w. unfold tryCatch. destruct (Hm w) as (added & E & F).
  destruct (m w) as [[a|t] w1]; simpl in *; [now exists added|].
  destruct (Hk t w1) as (added' & E' & F').
  exists (added ++ added'). split.
  - now rewrite E', E, app_assoc.
  - now apply Forall_app.
Qed.

End AppendsOnly.

Lemma appendsOnly_weaken {A} (P Q : Event -> Prop) (m : Action A) :
  (forall ev, P ev -> Q ev) -> appendsOnly P m -> appendsOnly Q m.
Proof.
  intros PQ H w. destruct (H w) as (added & E & F).
  exists added. split; [exact E|]. eapply Forall_impl; [exact PQ | exact F].
Qed.

(** Break an action into its steps, each of which appends events that
    the predicate accepts. *)
Ltac appends_only :=
  repeat first
    [ apply appendsOnly_ret
    | apply appendsOnly_throw
    | apply appendsOnly_evaluate
    | apply appendsOnly_readCache
    | apply appendsOnly_writeCache
    | apply appendsOnly_emit; simpl; auto
    | apply appendsOnly_perform; simpl; auto
    | apply appendsOnly_await; simpl; auto
    | apply appendsOnly_bind; [|intros ?]
    | apply appendsOnly_tryCatch; [|intros ?]
    | match goal with
      | |- appendsOnly _ (if ?b then _ else _) => destruct b
      | |- appendsOnly _ (match ?x with _ => _ end) => destruct x
      end ].

Lemma fallbackPromise_appendsOnly (h : Host) (buffer : Buffer) :
  appendsOnly parserEvent (fallbackPromise h buffer).
Proof. unfold fallbackPromise. appends_only. Qed.

Lemma pdfCatch_appendsOnly (h : Host) (buffer : Buffer) (error : Thrown) :
  appendsOnly parserEvent (pdfCatch h buffer error).
Proof.
  unfold pdfCatch.
  apply appendsOnly_bind; [apply appendsOnly_evaluate | intros errorMessage].
  destruct (_ || _); [|appends_only].
  pose proof (fallbackPromise_appendsOnly h buffer) as F.
  remember (fallbackPromise h buffer) as promise eqn:Pr. clear Pr.
  intros w. unfold bind, tryCatch, await, ret, throw, evaluate. cbn.
  destruct (PDFParser_new h (trace w)) as [u|e]; cbn.
  - destruct (F (mkWorld (sessionCache w) (trace w ++ [EvPdf2JsonNew])))
      as (added & E & Fa).
    exists (EvPdf2JsonNew :: added). split.
    + rewrite E. cbn. now rewrite <- app_assoc.
    + constructor; [exact I | exact Fa].
  - exists [EvPdf2JsonNew].
    destruct (messageOf h e);
      (split; [reflexivity | now repeat constructor]).
Qed.

Lemma extractText_appendsOnly (h : Host) (file : File) :
  appendsOnly parserEvent (extractText h file).
Proof.
  unfold extractText.
  destruct (JS.eqb (type file) MIME_PDF).
  - apply appendsOnly_tryCatch; [appends_only | apply pdfCatch_appendsOnly].
  - appends_only.
Qed.

(** X11. [extractText] leaves the session cache alone and calls nothing
    but the document parsers and the timer of the fallback, which is
    only ever armed with 30000 ms: neither the model constructor, nor
    the index builder, the retriever or the model. *)
Theorem extractText_calls_parsers_only (h : Host) (file : File) :
  keepsCache (extractText h file) /\
  appendsOnly parserEvent (extractText h file).
Proof.
  split; [apply extractText_keepsCache | apply extractText_appendsOnly].
Qed.

Lemma metadatasOf_ids (chunks : list jsstring) :
  map id (metadatasOf chunks) = seq 0 (length chunks).
Proof.
  unfold metadatasOf. rewrite map_map. simpl. apply map_id.
Qed.

Lemma chunker_shape (text : jsstring) :
  Forall (fun c => 1 <= length c <= 1000) (chunker text) /\
  length (chunker text) <= 50.
Proof.
  rewrite chunker_firstn. split.
  - apply Forall_firstn, allChunks_lengths.
  - rewrite length_firstn. unfold MAX_CHUNKS. lia.
Qed.

Lemma parserEvent_uploadEvent (ev : Event) : parserEvent ev -> uploadEvent ev.
Proof. destruct ev; simpl; easy. Qed.

(** X12. Whatever the form and the collaborators, [handlePdfUpload]
    calls only the parsers, the model constructor and the index builder.
    Every call to the index builder is on at most 50 texts, each of 1 to
    1000 code units, numbered 0, 1, 2, ... in order; the retriever and
    the model are never called. *)
Theorem upload_calls_are_bounded (h : Host) (formData : FormData) :
  appendsOnly uploadEvent (handlePdfUpload h formData).
Proof.
  unfold handlePdfUpload.
  destruct (providedFile formData) as [file|]; [|apply appendsOnly_ret].
  apply appendsOnly_bind.
  - apply appendsOnly_tryCatch; [|intros ?; appends_only].
    apply appendsOnly_bind; [|intros ?; apply appendsOnly_ret].
    destruct file as [s|f]; simpl; [apply appendsOnly_throw|].
    eapply appendsOnly_weaken; [exact parserEvent_uploadEvent|].
    apply extractText_appendsOnly.
  - intros [extracted|failure]; [|apply appendsOnly_ret].
    unfold buildIndex, indexBody, Langchain.createGroqAgent.
    apply appendsOnly_tryCatch; [|intros ?; appends_only].
    apply appendsOnly_bind.
    + apply appendsOnly_bind; [|intros ?; apply appendsOnly_ret].
      now apply appendsOnly_await.
    + intros agent. apply appendsOnly_bind.
      * apply appendsOnly_await. simpl.
        destruct (chunker_shape extracted) as (Len & Cnt).
        split; [exact Cnt|]. split; [exact Len | apply metadatasOf_ids].
      * intros store. appends_only.
Qed.

(* ================================================================== *)
(** * More on [handlePdfUpload] *)
(* ================================================================== *)

Lemma indexBody_success
    (h : Host) (chunks : list jsstring) (w : World) (s : jsstring) (w' : World) :
  indexBody h chunks w = (Normal s, w') ->
  s = MSG_SUCCESS /\
  exists handle store,
    let opts := Langchain.chatGroqFields (GROQ_API_KEY h) in
    ChatGroq_new h (trace w) opts = Normal handle /\
    MemoryVectorStore_fromTexts h (trace w ++ [EvNewChatGroq opts]) chunks
      (metadatasOf chunks) mkFakeEmbeddings = Normal store /\
    w' = mkWorld
           (mkSessionCache (Some store) (Some handle) (Some mkFakeEmbeddings)
              (Some handle))
           (trace w ++ [EvNewChatGroq opts;
                        EvFromTexts chunks (metadatasOf chunks)]).
Proof.
  unfold indexBody, Langchain.createGroqAgent, bind, await, writeCache, ret.
  cbn.
  destruct (ChatGroq_new h (trace w) _) as [handle|error] eqn:N; cbn;
    [|discriminate].
  destruct (MemoryVectorStore_fromTexts h _ chunks _ _) as [store|error] eqn:F;
    cbn; [|discriminate].
  intros [= <- <-]. split; [reflexivity|]. exists handle, store.
  split; [reflexivity|]. split; [reflexivity|]. now rewrite <- app_assoc.
Qed.

(** The success string is returned on the success path only. *)
Lemma handlePdfUpload_success
    (h : Host) (formData : FormData) (w w' : World) :
  handlePdfUpload h formData w = (Normal MSG_SUCCESS, w') ->
  exists file extracted w1,
    providedFile formData = Some file /\
    extractTextOf h file w = (Normal extracted, w1) /\
    indexBody h (chunker extracted) w1 = (Normal MSG_SUCCESS, w').
Proof.
  rewrite handlePdfUpload_cases.
  destruct (providedFile formData) as [file|].
  2:{ intros E. apply (f_equal fst) in E. cbn [fst] in E.
      destruct (failure_is_not_success []) as (N & _). congruence. }
  destruct (extractTextOf h file w) as [[extracted|error] w1] eqn:X.
  - destruct (indexBody h (chunker extracted) w1) as [[s|error] w2] eqn:I.
    + intros E. assert (s = MSG_SUCCESS /\ w2 = w') as [-> ->]
        by (split; congruence).
      now exists file, extracted, w1.
    + intros E. apply (f_equal fst) in E. cbn [fst] in E.
      unfold caught in E.
      destruct (messageOf h error) as [message|t]; [|discriminate E].
      destruct (failure_is_not_success message) as (_ & _ & N).
      congruence.
  - intros E. apply (f_equal fst) in E. cbn [fst] in E.
    unfold caught in E.
    destruct (messageOf h error) as [message|t]; [|discriminate E].
    destruct (failure_is_not_success message) as (_ & N & _).
    congruence.
Qed.

Lemma answerOf_world (h : Host) (response : JSValue) (w : World) :
  snd (answerOf h response w) = w.
Proof.
  unfold answerOf, getContent, bind, ret, throw, evaluate.
  destruct response; try reflexivity;
    (destruct (memberOf _ _) as [c|]; [destruct c|]; try reflexivity;
     match goal with
     | |- context [match ?c with Normal _ => _ | Abrupt _ => _ end] =>
         now destruct c
     end).
Qed.

(** [chatWithBot] once a document is loaded: the retriever, then the
    model, then the answer taken from the response. *)
Lemma chatWithBot_loaded
    (h : Host) (message : jsstring) (w : World)
    (store : MemoryVectorStore) (handle : ChatGroq) :
  vectorStore (sessionCache w) = Some store ->
  llm (sessionCache w) = Some handle ->
  chatWithBot h message w =
  let after added := mkWorld (sessionCache w) (trace w ++ added) in
  let lookup := EvGetRelevantDocuments store 3 message in
  match getRelevantDocuments h (trace w) store 3 message with
  | Abrupt t => (Abrupt t, after [lookup])
  | Normal docs =>
      let call := EvInvoke handle (promptOf docs message) in
      match invoke h (trace w ++ [lookup]) handle (promptOf docs message) with
      | Abrupt t => (Abrupt t, after [lookup; call])
      | Normal response =>
          (fst (answerOf h response (after [lookup; call])),
           after [lookup; call])
      end
  end.
Proof.
  intros S L. unfold chatWithBot, bind, readCache, await.
  cbn -[answerOf promptOf]. rewrite S, L. unfold RETRIEVE_K.
  destruct (getRelevantDocuments h (trace w) store 3 message) as [docs|t];
    [|reflexivity].
  destruct (invoke h _ handle (promptOf docs message)) as [response|t];
    cbn -[answerOf promptOf]; rewrite <- app_assoc; [|reflexivity].
  cbn [app]. rewrite (surjective_pairing (answerOf h response _)).
  now rewrite answerOf_world.
Qed.

(** X13. After an upload that returned the success string, the session
    cache holds the vector store that the index builder returned and,
    as both [chain] and [llm], the one handle that the model constructor
    returned for model [llama-3.1-8b-instant] and the key of the
    environment; and every later question is first looked up in that
    store, for 3 documents. *)
Theorem successful_upload_serves_questions
    (h : Host) (formData : FormData) (w w' : World) :
  handlePdfUpload h formData w =
  (Normal (lit "Document uploaded and processed successfully!"), w') ->
  exists store handle,
    sessionCache w' =
    mkSessionCache (Some store) (Some handle) (Some mkFakeEmbeddings)
      (Some handle) /\
    (exists past chunks,
        MemoryVectorStore_fromTexts h past chunks (metadatasOf chunks)
          mkFakeEmbeddings = Normal store) /\
    (exists past opts,
        ChatGroq_new h past opts = Normal handle /\
        model opts = lit "llama-3.1-8b-instant" /\
        apiKey opts = GROQ_API_KEY h) /\
    forall message,
    exists outcome rest,
      chatWithBot h message w' =
      (outcome,
       mkWorld (sessionCache w')
         (trace w' ++ EvGetRelevantDocuments store 3 message :: rest)).
Proof.
  intros H. apply handlePdfUpload_success in H.
  destruct H as (file & extracted & w1 & _ & _ & I).
  apply indexBody_success in I.
  destruct I as (_ & handle & store & N & F & ->).
  exists store, handle. split; [reflexivity|].
  split; [eexists _, _; exact F|].
  split; [eexists _, _; split; [exact N | split; reflexivity]|].
  intros message.
  rewrite chatWithBot_loaded with (store := store) (handle := handle)
    by reflexivity.
  cbv zeta.
  destruct (getRelevantDocuments h _ store 3 message) as [docs|t].
  - destruct (invoke h _ handle (promptOf docs message)) as [response|t];
      now eexists _, [_].
  - now eexists _, [].
Qed.

Lemma successful_upload_serves_questions_witness :
  let h := Demo.host (Demo.pdfOk "Lease agreement") TimerFirst
             (VString (lit "Twelve months.")) in
  let w' := snd (handlePdfUpload h
                   (Demo.formOf (Demo.fileOf "application/pdf" "%PDF-1.4"))
                   initialWorld) in
  exists store handle,
    sessionCache w' =
    mkSessionCache (Some store) (Some handle) (Some mkFakeEmbeddings)
      (Some handle).
Proof.
  intros h w'.
  destruct (@successful_upload_serves_questions h
              (Demo.formOf (Demo.fileOf "application/pdf" "%PDF-1.4"))
              initialWorld w') as (store & handle & C & _).
  - vm_compute. reflexivity.
  - now exists store, handle.
Defined.

Lemma extractText_other_type (h : Host) (file : File) (w : World) :
  type file <> MIME_PDF -> type file <> MIME_TXT -> type file <> MIME_DOCX ->
  extractText h file w = (Abrupt (ErrorObject MSG_UNSUPPORTED), w).
Proof.
  intros Hpdf Htxt Hdocx. unfold extractText.
  apply eqb_neq in Hpdf, Htxt, Hdocx. now rewrite Hpdf, Htxt, Hdocx.
Qed.

(** X14. An upload of a file whose declared type is not supported is
    answered with
    [Failed to extract text from document: Unsupported file type], and
    nothing else happens: no call is made and the session cache is
    kept. *)
Theorem unsupported_upload_is_reported
    (h : Host) (formData : FormData) (file : File) (w : World) :
  formData_get formData (lit "file") = Some (EntryFile file) ->
  type file <> lit "application/pdf" ->
  type file <> lit "text/plain" ->
  type file <>
    lit "application/vnd.openxmlformats-officedocument.wordprocessingml.document" ->
  handlePdfUpload h formData w =
  (Normal (lit "Failed to extract text from document: Unsupported file type"),
   w).
Proof.
  intros G Hpdf Htxt Hdocx.
  rewrite handlePdfUpload_cases, (providedFile_file _ G).
  cbn [extractTextOf]. now rewrite extractText_other_type.
Qed.

Lemma unsupported_upload_is_reported_witness :
  handlePdfUpload Scenario.plain
    (Demo.formOf (Demo.fileOf "image/png" "not a document")) Demo.loadedWorld =
  (Normal (lit "Failed to extract text from document: Unsupported file type"),
   Demo.loadedWorld).
Proof.
  apply unsupported_upload_is_reported with
    (file := Demo.fileOf "image/png" "not a document");
    [reflexivity | vm_compute; discriminate ..].
Defined.

(** X15. A plain-text upload whose text is empty or made of line
    terminators only is accepted: the index is built from no text at
    all, the success string is returned, and the session cache is
    replaced by one whose store came from that empty build. *)
Theorem text_without_content_indexes_nothing
    (h : Host) (formData : FormData) (file : File) (w : World)
    (handle : ChatGroq) (store : MemoryVectorStore) :
  formData_get formData (lit "file") = Some (EntryFile file) ->
  type file = lit "text/plain" ->
  stripLineTerminators (Buffer_toString_utf8 h (bytes file)) = [] ->
  let opts := Langchain.chatGroqFields (GROQ_API_KEY h) in
  ChatGroq_new h (trace w) opts = Normal handle ->
  MemoryVectorStore_fromTexts h (trace w ++ [EvNewChatGroq opts]) [] []
    mkFakeEmbeddings = Normal store ->
  handlePdfUpload h formData w =
  (Normal (lit "Document uploaded and processed successfully!"),
   mkWorld
     (mkSessionCache (Some store) (Some handle) (Some mkFakeEmbeddings)
        (Some handle))
     (trace w ++ [EvNewChatGroq opts; EvFromTexts [] []])).
Proof.
  intros G Ty Empty opts N F.
  rewrite handlePdfUpload_cases, (providedFile_file _ G).
  cbn [extractTextOf]. rewrite (extractText_plain h file w Ty).
  apply chunker_nil_iff in Empty. rewrite Empty.
  unfold indexBody, Langchain.createGroqAgent, bind, await, writeCache, ret.
  cbn. fold opts. rewrite N. cbn. rewrite F. cbn.
  now rewrite <- app_assoc.
Qed.

Lemma text_without_content_indexes_nothing_witness :
  let file := mkFile (lit "text/plain") 2 [Byte.x0d; Byte.x0a] in
  let w' := snd (handlePdfUpload Scenario.plain (Demo.formOf file)
                   initialWorld) in
  vectorStore (sessionCache w') = Some (mkMemoryVectorStore []).
Proof.
  intros file w'. subst w'.
  rewrite (@text_without_content_indexes_nothing Scenario.plain
             (Demo.formOf file) file initialWorld
             (mkChatGroq (Langchain.chatGroqFields (Some (lit "gsk_demo"))))
             (mkMemoryVectorStore [])
             eq_refl eq_refl eq_refl eq_refl eq_refl).
  reflexivity.
Defined.

(* ================================================================== *)
(** * More on [chatWithBot] *)
(* ================================================================== *)

(** X16. [chatWithBot] never changes the session cache, and its calls
    are at most one lookup of 3 documents in the cached store followed
    by at most one call of the cached model: it calls no parser, no
    constructor and no index builder.  It calls nothing when the cache
    lacks the store or the model; the lookup alone when the lookup
    throws; and otherwise the lookup and then the model, on the prompt
    made of the question and of the documents that the lookup
    returned. *)
Theorem chatWithBot_only_reads (h : Host) (message : jsstring) (w : World) :
  sessionCache (snd (chatWithBot h message w)) = sessionCache w /\
  (((vectorStore (sessionCache w) = None \/ llm (sessionCache w) = None) /\
    trace (snd (chatWithBot h message w)) = trace w)
   \/
   exists store handle,
     vectorStore (sessionCache w) = Some store /\
     llm (sessionCache w) = Some handle /\
     ((exists t,
          getRelevantDocuments h (trace w) store 3 message = Abrupt t /\
          trace (snd (chatWithBot h message w)) =
          trace w ++ [EvGetRelevantDocuments store 3 message])
      \/
      (exists docs,
          getRelevantDocuments h (trace w) store 3 message = Normal docs /\
          trace (snd (chatWithBot h message w)) =
          trace w ++ [EvGetRelevantDocuments store 3 message;
                      EvInvoke handle (promptOf docs message)]))).
Proof.
  destruct (vectorStore (sessionCache w)) as [store|] eqn:S.
  - destruct (llm (sessionCache w)) as [handle|] eqn:L.
    + rewrite (chatWithBot_loaded h message w S L). cbv zeta.
      destruct (getRelevantDocuments h (trace w) store 3 message)
        as [docs|t] eqn:D.
      * destruct (invoke h _ handle (promptOf docs message)) as [response|t];
          (split; [reflexivity|]); right; exists store, handle;
          (split; [reflexivity|]); (split; [reflexivity|]);
          right; exists docs; now split.
      * split; [reflexivity|]. right. exists store, handle.
        split; [reflexivity|]. split; [reflexivity|].
        left. exists t. now split.
    + unfold chatWithBot, bind, readCache. cbn. rewrite S, L. cbn. auto.
  - unfold chatWithBot, bind, readCache. cbn. rewrite S. cbn. auto.
Qed.

(** X17. [chatWithBot] catches nothing: when the retriever throws, the
    value it threw is what [chatWithBot] throws, and the model is not
    called; when the model call throws, the value it threw is what
    [chatWithBot] throws. *)
Theorem chatWithBot_propagates_failures
    (h : Host) (message : jsstring) (w : World)
    (store : MemoryVectorStore) (handle : ChatGroq) :
  vectorStore (sessionCache w) = Some store ->
  llm (sessionCache w) = Some handle ->
  let lookup := EvGetRelevantDocuments store 3 message in
  (forall t,
      getRelevantDocuments h (trace w) store 3 message = Abrupt t ->
      chatWithBot h message w =
      (Abrupt t, mkWorld (sessionCache w) (trace w ++ [lookup]))) /\
  (forall docs t,
      getRelevantDocuments h (trace w) store 3 message = Normal docs ->
      invoke h (trace w ++ [lookup]) handle (promptOf docs message) = Abrupt t ->
      chatWithBot h message w =
      (Abrupt t,
       mkWorld (sessionCache w)
         (trace w ++ [lookup; EvInvoke handle (promptOf docs message)]))).
Proof.
  intros S L lookup. rewrite (chatWithBot_loaded h message w S L). cbv zeta.
  fold lookup. split.
  - intros t ->. reflexivity.
  - intros docs t -> ->. reflexivity.
Qed.

Lemma chatWithBot_propagates_failures_witness :
  fst (chatWithBot Scenario.retrieverDown (lit "Who signs?") Demo.loadedWorld)
  = Abrupt (ThrownValue (VString (lit "down"))) /\
  fst (chatWithBot Scenario.modelDown (lit "Who signs?") Demo.loadedWorld)
  = Abrupt (ErrorObject (lit "429 rate limit")).
Proof.
  split.
  - destruct (@chatWithBot_propagates_failures Scenario.retrieverDown
                (lit "Who signs?") Demo.loadedWorld _ _ eq_refl eq_refl)
      as [R _].
    now rewrite (R _ eq_refl).
  - destruct (@chatWithBot_propagates_failures Scenario.modelDown
                (lit "Who signs?") Demo.loadedWorld _ _ eq_refl eq_refl)
      as [_ M].
    now rewrite (M _ _ eq_refl eq_refl).
Defined.

(** X18. A response that is not a string and has no [content] (an
    object without that property, a number, a boolean, an array) is
    answered with the nine letters [undefined]. *)
Theorem response_without_content_answers_undefined
    (h : Host) (response : JSValue) (w : World) :
  (forall s, response <> VString s) ->
  memberOf response (lit "content") = Some VUndefined ->
  answerOf h response w = (Normal (lit "undefined"), w).
Proof.
  intros NotString M. now rewrite (answerOf_content h w NotString M).
Qed.

Lemma response_without_content_answers_undefined_witness :
  answerOf Scenario.plain
    (VObject [(lit "text", VString (lit "Twelve months."))]) initialWorld
  = (Normal (lit "undefined"), initialWorld).
Proof.
  apply response_without_content_answers_undefined;
    [intros s; discriminate | reflexivity].
Defined.

Lemma join_nonempty (sep : jsstring) (parts : list jsstring) :
  sep <> [] -> 2 <= length parts -> join sep parts <> [].
Proof.
  intros Hs. destruct parts as [|p [|q rest]]; simpl; try lia. intros _ E.
  apply app_eq_nil in E. destruct E as [_ E].
  apply app_eq_nil in E. now destruct E.
Qed.

(** [String(v)], when it returns, is empty for the empty string and for
    arrays that print as nothing, and for nothing else, as long as
    numbers print as something. *)
Lemma ToString_nonempty (h : Host) (v : JSValue) (s : jsstring) :
  (forall x, Number_toString h x <> []) ->
  (forall s', v <> VString s') -> (forall elems, v <> VArray elems) ->
  ToString h v = Normal s -> s <> [].
Proof.
  intros Num NotString NotArray.
  destruct v as [| |[|]|x|s'|elems|props]; simpl;
    try (intros [= <-]; discriminate).
  - intros [= <-]. apply Num.
  - now destruct (NotString s').
  - now destruct (NotArray elems).
  - destruct (getProp props (lit "toString")); [discriminate|].
    intros [= <-]. discriminate.
Qed.

(** X19. As long as numbers print as something, the fallback to
    [JSON.stringify] is never taken: for a [content] that is neither a
    string nor an array, the answer is [String(content)] and is not
    empty, whatever [JSON.stringify] would give; and when
    [String(content)] throws, its exception is what [answerOf] ends
    with. *)
Theorem json_fallback_is_never_taken
    (h : Host) (response content : JSValue) (w : World) :
  (forall x, Number_toString h x <> []) ->
  (forall s, response <> VString s) ->
  memberOf response (lit "content") = Some content ->
  (forall s, content <> VString s) ->
  (forall parts, content <> VArray parts) ->
  match ToString h content with
  | Normal s => s <> [] /\ answerOf h response w = (Normal s, w)
  | Abrupt t => answerOf h response w = (Abrupt t, w)
  end.
Proof.
  intros Num NotString M CS CA.
  pose proof (@ToString_nonempty h content) as NE.
  rewrite (answerOf_content h w NotString M).
  assert (Other :
    match content with
    | VString s => Normal s
    | VArray parts =>
        match mapParts h parts with
        | Normal texts => Normal (concat texts)
        | Abrupt t => Abrupt t
        end
    | _ =>
        match ToString h content with
        | Normal text => Normal (orElse text (JSON_stringify h response))
        | Abrupt t => Abrupt t
        end
    end =
    match ToString h content with
    | Normal text => Normal (orElse text (JSON_stringify h response))
    | Abrupt t => Abrupt t
    end).
  { destruct content as [| |b|x|s|elems|props]; try reflexivity.
    - now destruct (CS s).
    - now destruct (CA elems). }
  rewrite Other.
  destruct (ToString h content) as [s|t]; [|reflexivity].
  specialize (NE s Num CS CA eq_refl).
  split; [exact NE|]. destruct s; [now destruct NE | reflexivity].
Qed.

Lemma numberToString_nonempty (x : spec_float) : Demo.numberToString x <> [].
Proof. destruct x as [s|[|]| |s m e]; vm_compute; discriminate. Qed.

Lemma json_fallback_is_never_taken_witness :
  answerOf Scenario.plain
    (VObject [(lit "content", VObject [(lit "text", VString (lit "Twelve"))])])
    initialWorld
  = (Normal (lit "[object Object]"), initialWorld).
Proof.
  refine (proj2 (@json_fallback_is_never_taken Scenario.plain
                   (VObject [(lit "content",
                              VObject [(lit "text", VString (lit "Twelve"))])])
                   (VObject [(lit "text", VString (lit "Twelve"))]) initialWorld
                   _ _ _ _ _)).
  - exact numberToString_nonempty.
  - intros s; discriminate.
  - reflexivity.
  - intros s; discriminate.
  - intros parts; discriminate.
Defined.

Lemma startsWith_keep (m s b : jsstring) :
  startsWith m s = true -> startsWith m (s ++ b) = true.
Proof.
  revert s. induction m as [|x m IH]; intros [|y s]; simpl; try easy.
  rewrite !andb_true_iff. intros [-> H]. split; [reflexivity | now apply IH].
Qed.

Lemma includes_keep (s b m : jsstring) :
  includes s m = true -> includes (s ++ b) m = true.
Proof.
  induction s as [|c s IH]; simpl.
  - rewrite orb_false_r. destruct m; [|discriminate]. intros _.
    now destruct b.
  - rewrite !orb_true_iff. intros [H|H].
    + left. now apply (startsWith_keep m (c :: s) b).
    + right. now apply IH.
Qed.

Lemma includes_self (m : jsstring) : includes m m = true.
Proof.
  apply includes_here. rewrite <- (app_nil_r m) at 2. apply startsWith_app.
Qed.

Lemma includes_join (sep : jsstring) (parts : list jsstring) (p : jsstring) :
  In p parts -> includes (join sep parts) p = true.
Proof.
  induction parts as [|q [|r rest] IH]; [easy| |].
  - intros [<-|[]]. apply includes_self.
  - intros [<-|H].
    + apply includes_here, startsWith_app.
    + change (join sep (q :: r :: rest)) with (q ++ sep ++ join sep (r :: rest)).
      do 2 apply includes_skip. now apply IH.
Qed.

(** X20. The model is given exactly two messages: the fixed system
    prompt, then one user message that contains the question as it was
    asked and the text of every retrieved document. *)
Theorem prompt_carries_question_and_documents
    (docs : list Document) (message : jsstring) :
  exists userMessage,
    promptOf docs message =
    [ mkChatMessage (lit "system")
        (lit "You are a helpful assistant that answers questions based on the provided context from a document.");
      mkChatMessage (lit "user") userMessage ] /\
    includes userMessage (lit "Question: " ++ message) = true /\
    Forall (fun d => includes userMessage (pageContent d) = true) docs.
Proof.
  eexists. split; [reflexivity|]. unfold userMessageOf. split.
  - do 8 apply includes_skip. rewrite app_assoc.
    apply includes_here, startsWith_app.
  - apply Forall_forall. intros d Hd.
    do 5 apply includes_skip. apply includes_keep.
    apply includes_join, in_map, Hd.
Qed.

(* ================================================================== *)
(** * The client *)
(* ================================================================== *)

Import Client.

Lemma arrayIncludes_In (a : list jsstring) (x : jsstring) :
  arrayIncludes a x = true <-> In x a.
Proof.
  unfold arrayIncludes. rewrite existsb_exists. split.
  - intros (y & Hy & E). apply eqb_eq in E. now subst.
  - intros H. exists x. split; [exact H | apply eqb_refl].
Qed.

(** X21. [handleFile] keeps a file exactly when its declared type is one
    of the three allowed ones and its size is at most 10485760 bytes,
    that size included: then the file becomes the uploaded file and the
    parent is told.  Any other file only raises an alert and leaves the
    component as it was. *)
Theorem handleFile_keeps_allowed_files (file : File) (st : UploadState) :
  (In (type file) allowedTypes /\ (size file <= 10485760)%N ->
   handleFile file = [SetUploadedFile file; OnDocumentUpload file] /\
   uploadedFile (runUpload (handleFile file) st) = Some file) /\
  (~ (In (type file) allowedTypes /\ (size file <= 10485760)%N) ->
   (exists message, handleFile file = [Alert message]) /\
   runUpload (handleFile file) st = st).
Proof.
  unfold handleFile.
  destruct (arrayIncludes allowedTypes (type file)) eqn:A; cbn [negb].
  - apply arrayIncludes_In in A.
    destruct (MAX_FILE_SIZE <? size file)%N eqn:S.
    + apply N.ltb_lt in S. unfold MAX_FILE_SIZE in S. split.
      * intros [_ H]. simpl in S. lia.
      * intros _. split; [now eexists | reflexivity].
    + apply N.ltb_ge in S. unfold MAX_FILE_SIZE in S. split.
      * intros _. split; reflexivity.
      * intros N. destruct N. split; [exact A | simpl in S; lia].
  - split.
    + intros [H _]. apply arrayIncludes_In in H. congruence.
    + intros _. split; [now eexists | reflexivity].
Qed.

Lemma extractText_pdf_first_call (h : Host) (file : File) (w : World) :
  type file = MIME_PDF ->
  exists rest,
    trace (snd (extractText h file w)) =
    trace w ++ EvPdfParse (bytes file) :: rest.
Proof.
  intros Ty. unfold extractText. rewrite Ty, eqb_refl.
  unfold tryCatch, bind, await, ret, throw. cbn -[isBlank pdfCatch].
  set (w1 := mkWorld (sessionCache w) (trace w ++ [EvPdfParse (bytes file)])).
  assert (C : forall error, exists rest,
             trace (snd (pdfCatch h (bytes file) error w1)) =
             trace w ++ EvPdfParse (bytes file) :: rest).
  { intros error.
    destruct (pdfCatch_appendsOnly h (bytes file) error w1) as (added & E & _).
    exists added. rewrite E. unfold w1. cbn. now rewrite <- app_assoc. }
  destruct (pdf h (trace w) (bytes file)) as [pdfData|error]; [|apply C].
  destruct (isBlank (text pdfData)); [apply C|].
  now exists [].
Qed.

Lemma docx_shape (h : Host) (file : File) (w : World) :
  type file = MIME_DOCX ->
  exists outcome,
    extractText h file w =
    (outcome, mkWorld (sessionCache w) (trace w ++ [EvMammoth (bytes file)])).
Proof.
  intros Ty. unfold extractText. rewrite Ty.
  change (JS.eqb _ MIME_PDF) with false.
  change (JS.eqb _ MIME_TXT) with false.
  change (JS.eqb _ MIME_DOCX) with true. cbv iota.
  unfold tryCatch, bind, await, ret, throw, evaluate. cbn -[isBlank].
  destruct (mammoth_extractRawText h (trace w) (bytes file)) as [result|error];
    [destruct (isBlank (value result)) | cbn; destruct (messageOf h error)];
    now eexists.
Qed.

(** X22. A file that [handleFile] keeps is never turned away by
    [extractText] as unsupported: the server decodes it as plain text,
    or calls the PDF parser on its bytes, or calls mammoth on them. *)
Theorem kept_file_is_parsed (h : Host) (file : File) (w : World) :
  handleFile file = [SetUploadedFile file; OnDocumentUpload file] ->
  fst (extractText h file w) = Normal (Buffer_toString_utf8 h (bytes file))
  \/ (exists rest,
        trace (snd (extractText h file w)) =
        trace w ++ EvPdfParse (bytes file) :: rest)
  \/ trace (snd (extractText h file w)) = trace w ++ [EvMammoth (bytes file)].
Proof.
  unfold handleFile.
  destruct (arrayIncludes allowedTypes (type file)) eqn:A; cbn [negb];
    [|discriminate].
  intros _. apply arrayIncludes_In in A.
  destruct A as [E|[E|[E|[]]]]; symmetry in E.
  - right; left. now apply extractText_pdf_first_call.
  - left. now rewrite (extractText_plain h file w E).
  - right; right.
    destruct (@docx_shape h file w E) as (outcome & X).
    now rewrite X.
Qed.

Lemma handleFile_keeps_allowed_files_witness :
  let file := mkFile (lit "text/plain") 10485760 [] in
  handleFile file = [SetUploadedFile file; OnDocumentUpload file].
Proof.
  intros file.
  apply (proj1 (handleFile_keeps_allowed_files file DemoClient.idle)).
  split; [right; left; reflexivity | vm_compute; discriminate].
Defined.

Lemma kept_file_is_parsed_witness :
  let file := Demo.fileOf "text/plain" "Lease agreement" in
  fst (extractText Scenario.plain file initialWorld)
  = Normal (lit "Lease agreement").
Proof.
  intros file.
  destruct (@kept_file_is_parsed Scenario.plain file initialWorld eq_refl)
    as [T | [(rest & P) | M]].
  - exact T.
  - vm_compute in P. destruct rest; discriminate P.
  - vm_compute in M. discriminate M.
Defined.

(** A string that [handlePdfUpload] returns is never empty. *)
Lemma handlePdfUpload_returns_text
    (h : Host) (formData : FormData) (w : World) (s : jsstring) (w' : World) :
  handlePdfUpload h formData w = (Normal s, w') -> s <> [].
Proof.
  rewrite handlePdfUpload_cases.
  destruct (providedFile formData) as [file|];
    [|intros [= <- _]; vm_compute; discriminate].
  unfold caught.
  destruct (extractTextOf h file w) as [[extracted|error] w1].
  - destruct (indexBody_cases h (chunker extracted) w1)
      as [(error & w2 & I & _) | (handle & store & w2 & I & _)];
      rewrite I.
    + destruct (messageOf h error); [|discriminate].
      intros [= <- _]. vm_compute. discriminate.
    + intros [= <- _]. vm_compute. discriminate.
  - destruct (messageOf h error); [|discriminate].
    intros [= <- _]. vm_compute. discriminate.
Qed.

(** X23. [startChat] with a file in hand calls [handlePdfUpload] on a
    form holding that file and always ends with [isUploading] false and
    the file still in hand.  When the call is delivered and the server
    returns a string, that string is not empty and the chat is started,
    with no error shown, exactly when it is the success string;
    otherwise the error shown is the server's string, word for word.
    When the server action throws, when the call is not delivered, or
    when its response is lost, the chat is not started and a fixed
    message is shown, although in the last case the server has run. *)
Theorem startChat_outcome
    (rt : Runtime) (h : Host) (st : UploadState) (w : World) (file : File) :
  uploadedFile st = Some file ->
  let served := handlePdfUpload h [(lit "file", EntryFile file)] w in
  let effects := fst (startChat rt h st w) in
  let st' := runUpload effects st in
  isUploading st' = false /\
  uploadedFile st' = Some file /\
  match transport rt (trace w) with
  | Delivered =>
      snd (startChat rt h st w) = snd served /\
      match fst served with
      | Normal s =>
          s <> [] /\
          if JS.eqb s (lit "Document uploaded and processed successfully!")
          then uploadError st' = None /\
               effects = [SetIsUploading true; SetUploadError None;
                          OnStartChat; SetIsUploading false]
          else uploadError st' = Some s /\ ~ In OnStartChat effects
      | Abrupt _ =>
          uploadError st' =
            Some (lit "Failed to upload document. Please try again.") /\
          ~ In OnStartChat effects
      end
  | RequestLost _ =>
      snd (startChat rt h st w) = w /\
      uploadError st' =
        Some (lit "Failed to upload document. Please try again.") /\
      ~ In OnStartChat effects
  | ResponseLost _ =>
      snd (startChat rt h st w) = snd served /\
      uploadError st' =
        Some (lit "Failed to upload document. Please try again.") /\
      ~ In OnStartChat effects
  end.
Proof.
  intros U served effects st'. subst effects st'.
  pose proof (@handlePdfUpload_returns_text h [(lit "file", EntryFile file)] w)
    as NE. fold served in NE.
  assert (NoStart : forall e : option jsstring,
             ~ In OnStartChat
                 ([SetIsUploading true; SetUploadError None]
                  ++ [SetUploadError e] ++ [SetIsUploading false])).
  { intros e [H|[H|[H|[H|[]]]]]; discriminate H. }
  unfold startChat, callServer. rewrite U. fold served.
  destruct (transport rt (trace w)) as [|t|t].
  - destruct served as [[s|t] w1]; cbn [fst snd].
    + specialize (NE s w1 eq_refl).
      destruct (JS.eqb s (lit "Document uploaded and processed successfully!"));
        cbn -[lit]; rewrite U.
      * repeat split. exact NE.
      * assert (orElse s (lit "Failed to process document") = s) as ->
          by (destruct s; [now destruct NE | reflexivity]).
        repeat split; [exact NE | apply NoStart].
    + cbn -[lit]. rewrite U. repeat split. apply NoStart.
  - cbn -[lit]. rewrite U. repeat split. apply NoStart.
  - cbn -[lit]. rewrite U. repeat split. apply NoStart.
Qed.

Lemma startChat_outcome_witness :
  let st := mkUploadState false
              (Some (Demo.fileOf "application/pdf" "%PDF-1.4")) false None in
  let h := Demo.host (Demo.pdfError "No password given") TimerFirst VNull in
  uploadError (runUpload (fst (startChat DemoClient.runtime h st initialWorld)) st)
  = Some (lit "Failed to extract text from document: This PDF appears to be password-protected or encrypted. Please remove the password and try again.").
Proof.
  intros st h.
  destruct (@startChat_outcome DemoClient.runtime h st initialWorld
              (Demo.fileOf "application/pdf" "%PDF-1.4") eq_refl)
    as (_ & _ & _ & _ & D).
  exact (proj1 D).
Defined.

(** When the server action throws, the client shows its own fixed
    message, not anything of the server's. *)
Example startChat_server_throws :
  let st := mkUploadState false
              (Some (Demo.fileOf "application/pdf" "%PDF-1.4")) false None in
  let h := Demo.host (Demo.pdfError "bad XRef entry")
             (ExecutorThrows (ThrownValue (VObject [(lit "toString", VNull)])))
             VNull in
  uploadError (runUpload (fst (startChat DemoClient.runtime h st initialWorld)) st)
  = Some (lit "Failed to upload document. Please try again.").
Proof. vm_compute. reflexivity. Qed.

Lemma chatWithBot_unloaded (h : Host) (message : jsstring) (w : World) :
  vectorStore (sessionCache w) = None ->
  chatWithBot h message w = (Normal MSG_UPLOAD_FIRST, w).
Proof.
  intros S. unfold chatWithBot, bind, readCache. cbn. now rewrite S.
Qed.

(** X24. [handleSubmit] does nothing but cancel the form's default
    action when the input is blank or an answer is still awaited: no
    message is added, the input is kept, and the server is not
    called. *)
Theorem blank_or_busy_submit_is_ignored
    (rt : Runtime) (h : Host) (st : ChatState) (reads : nat) (w : World) :
  trim (inputValue st) = [] \/ isLoading st = true ->
  handleSubmit rt h st reads w = ([PreventDefault], w) /\
  runChat (fst (handleSubmit rt h st reads w)) st = st.
Proof.
  intros H. unfold handleSubmit.
  assert ((match trim (inputValue st) with [] => true | _ => false end
           || isLoading st) = true) as ->.
  { destruct H as [-> | ->]; [reflexivity | apply orb_true_r]. }
  split; [reflexivity | now destruct st].
Qed.

Lemma blank_or_busy_submit_is_ignored_witness :
  handleSubmit DemoClient.runtime Scenario.plain (DemoClient.asking "   ") 0
    Demo.loadedWorld
  = ([PreventDefault], Demo.loadedWorld).
Proof.
  apply (proj1 (@blank_or_busy_submit_is_ignored DemoClient.runtime
                  Scenario.plain (DemoClient.asking "   ") 0 Demo.loadedWorld
                  (or_introl eq_refl))).
Defined.

(** X25. A submitted question that is not blank, when no answer is
    awaited, adds exactly two messages to the conversation: the user's
    question, as typed, then one message of the assistant, which is the
    string [chatWithBot] returned when the call went through, and the
    fixed apology when the server action threw or the call was lost.
    The input is emptied and [isLoading] ends false. *)
Theorem submit_adds_question_and_reply
    (rt : Runtime) (h : Host) (st : ChatState) (reads : nat) (w : World) :
  trim (inputValue st) <> [] ->
  isLoading st = false ->
  let st' := runChat (fst (handleSubmit rt h st reads w)) st in
  exists question reply,
    messages st' = messages st ++ [question; reply] /\
    role question = user /\ content question = inputValue st /\
    role reply = assistant /\
    content reply =
      match callServer rt (chatWithBot h (inputValue st)) w with
      | (Normal response, _) => response
      | (Abrupt _, _) =>
          lit "Sorry, there was an error processing your question. Please try again."
      end /\
    inputValue st' = [] /\ isLoading st' = false /\
    snd (handleSubmit rt h st reads w) =
    snd (callServer rt (chatWithBot h (inputValue st)) w).
Proof.
  intros NB NL. unfold handleSubmit. rewrite NL.
  destruct (trim (inputValue st)) as [|c t] eqn:T; [now destruct NB|].
  cbn [orb].
  destruct (callServer rt (chatWithBot h (inputValue st)) w)
    as [[response|thrown] w1];
    cbn -[lit toDecimal]; eexists _, _; rewrite <- app_assoc;
    repeat split.
Qed.

Lemma submit_adds_question_and_reply_witness :
  let h := Demo.host (Demo.pdfOk "unused") TimerFirst
             (VString (lit "Twelve months.")) in
  let st := DemoClient.asking "How long is the lease?" in
  map content
    (messages (runChat (fst (handleSubmit DemoClient.runtime h st 0
                               Demo.loadedWorld)) st))
  = [lit "How long is the lease?"; lit "Twelve months."].
Proof.
  intros h st.
  destruct (@submit_adds_question_and_reply DemoClient.runtime h st 0
              Demo.loadedWorld) as (question & reply & M & _ & Q & _ & R & _).
  - vm_compute. discriminate.
  - reflexivity.
  - rewrite M. cbn [map messages st DemoClient.asking app]. rewrite Q, R.
    reflexivity.
Defined.

(** X26. A question asked before any document was uploaded, when the
    call goes through, is answered in the conversation with
    [Please upload a document first.]; the server makes no call and
    keeps its state. *)
Theorem question_before_upload_shows_guidance
    (rt : Runtime) (h : Host) (st : ChatState) (reads : nat) (w : World) :
  transport rt (trace w) = Delivered ->
  vectorStore (sessionCache w) = None ->
  trim (inputValue st) <> [] ->
  isLoading st = false ->
  snd (handleSubmit rt h st reads w) = w /\
  exists question,
    messages (runChat (fst (handleSubmit rt h st reads w)) st) =
    messages st
    ++ [question;
        mkMessage (toDecimal (Date_now rt (reads + 2) + 1)) assistant
          (lit "Please upload a document first.")
          (Date_now rt (reads + 3))] /\
    content question = inputValue st.
Proof.
  intros D S NB NL. unfold handleSubmit. rewrite NL.
  destruct (trim (inputValue st)) as [|c t] eqn:T; [now destruct NB|].
  cbn [orb]. unfold callServer. rewrite D.
  rewrite (chatWithBot_unloaded h (inputValue st) w S).
  split; [reflexivity|].
  eexists. cbn -[lit toDecimal]. rewrite <- app_assoc. split; reflexivity.
Qed.

Lemma question_before_upload_shows_guidance_witness :
  let st := DemoClient.asking "How long is the lease?" in
  map content
    (messages (runChat (fst (handleSubmit DemoClient.runtime Scenario.plain
                               st 0 initialWorld)) st))
  = [lit "How long is the lease?"; lit "Please upload a document first."].
Proof.
  intros st.
  destruct (@question_before_upload_shows_guidance DemoClient.runtime
              Scenario.plain st 0 initialWorld eq_refl eq_refl)
    as (_ & question & M & Q).
  - vm_compute. discriminate.
  - reflexivity.
  - rewrite M. cbn [map messages st DemoClient.asking app content].
    rewrite Q. reflexivity.
Defined.

(** X27. A PDF from which the primary parser returns only blank text
    (or no text) is refused after that one call: the empty-extraction
    error is caught by the same [catch] clause as parser errors, and
    what [extractText] throws is the corrupted-file error carrying the
    empty-extraction message.  The fallback parser is not tried. *)
Theorem blank_pdf_is_refused
    (h : Host) (file : File) (w : World) (pdfData : PdfData) :
  type file = lit "application/pdf" ->
  pdf h (trace w) (bytes file) = Normal pdfData ->
  isBlank (text pdfData) = true ->
  extractText h file w =
  (Abrupt
     (ErrorObject
        (lit "Failed to parse PDF. The file may be corrupted or in an unsupported format: "
         ++ lit "PDF appears to be empty or contains no extractable text")),
   mkWorld (sessionCache w) (trace w ++ [EvPdfParse (bytes file)])).
Proof.
  intros E P B. unfold extractText. rewrite E.
  unfold tryCatch, bind, await. cbn. rewrite P, B. reflexivity.
Qed.

Lemma blank_pdf_is_refused_witness :
  let h := Demo.host (Demo.pdfOk "   ") TimerFirst VNull in
  fst (extractText h (Demo.fileOf "application/pdf" "%PDF-1.4") initialWorld)
  = Abrupt
      (ErrorObject
         (lit "Failed to parse PDF. The file may be corrupted or in an unsupported format: PDF appears to be empty or contains no extractable text")).
Proof.
  intros h.
  rewrite (@blank_pdf_is_refused h
             (Demo.fileOf "application/pdf" "%PDF-1.4") initialWorld
             (mkPdfData (Some (lit "   "))) eq_refl eq_refl eq_refl).
  reflexivity.
Defined.
